(** * A shallow embedding of the demo hostpath CSI driver (package [driver])

    The three gRPC services of the plugin (Identity, Controller, Node) and
    the logging interceptor are translated from the Go sources
    [pkg/driver/identity.go], [pkg/driver/controller.go],
    [pkg/driver/node.go] and [pkg/driver/driver.go].

    Every handler is a state-passing function over a [World]: the host the
    plugin runs on (file tree and mount table, reached only through the
    operations of the [HostOS] interface) and the output of [klog].  A
    handler returns what the Go method returns, the pair (response, error),
    either of which may be nil. *)

From Stdlib Require Import ZArith String Ascii List Bool Lia.
From stdpp Require Import base option list gmap strings.

Set Default Proof Using "Type".
#[local] Set Warnings "-register-all,-clear-no-such-hyp".
#[local] Open Scope Z_scope.

(** ** Go values shared by all handlers *)

(** A Go pointer that may be nil. *)
Abbreviation ptr := option (only parsing).

(** [google.golang.org/grpc/codes]. *)
Inductive Code :=
  | OK | Canceled | Unknown | InvalidArgument | DeadlineExceeded | NotFound
  | AlreadyExists | PermissionDenied | ResourceExhausted | FailedPrecondition
  | Aborted | OutOfRange | Unimplemented | Internal | Unavailable | DataLoss
  | Unauthenticated.

#[global] Instance Code_eq_dec : EqDecision Code.
Proof. solve_decision. Defined.

Definition Code_String (c : Code) : string :=
  match c with
  | OK => "OK" | Canceled => "Canceled" | Unknown => "Unknown"
  | InvalidArgument => "InvalidArgument"
  | DeadlineExceeded => "DeadlineExceeded" | NotFound => "NotFound"
  | AlreadyExists => "AlreadyExists" | PermissionDenied => "PermissionDenied"
  | ResourceExhausted => "ResourceExhausted"
  | FailedPrecondition => "FailedPrecondition" | Aborted => "Aborted"
  | OutOfRange => "OutOfRange" | Unimplemented => "Unimplemented"
  | Internal => "Internal" | Unavailable => "Unavailable"
  | DataLoss => "DataLoss" | Unauthenticated => "Unauthenticated"
  end.

(** [syscall.Errno], the values the modelled system calls can report. *)
Inductive Errno :=
  | EPERM | ENOENT | EACCES | EBUSY | EEXIST | ENODEV | ENOTDIR | EISDIR
  | EINVAL | ENOTEMPTY.

#[global] Instance Errno_eq_dec : EqDecision Errno.
Proof. solve_decision. Defined.

Definition Errno_Error (e : Errno) : string :=
  match e with
  | EPERM => "operation not permitted"
  | ENOENT => "no such file or directory"
  | EACCES => "permission denied"
  | EBUSY => "device or resource busy"
  | EEXIST => "file exists"
  | ENODEV => "no such device"
  | ENOTDIR => "not a directory"
  | EISDIR => "is a directory"
  | EINVAL => "invalid argument"
  | ENOTEMPTY => "directory not empty"
  end.

(** The dynamic values of Go's [error] interface that occur in the driver:
    a gRPC status error, an [*fs.PathError] of package [os], and a bare
    [syscall.Errno].  A nil [error] is [None]. *)
Inductive error :=
  | StatusError (c : Code) (msg : string)
  | PathError (op path : string) (e : Errno)
  | ErrnoError (e : Errno).

#[global] Instance error_eq_dec : EqDecision error.
Proof. solve_decision. Defined.

Definition error_Error (err : error) : string :=
  match err with
  | StatusError c msg =>
      "rpc error: code = " +:+ Code_String c +:+ " desc = " +:+ msg
  | PathError op path e => op +:+ " " +:+ path +:+ ": " +:+ Errno_Error e
  | ErrnoError e => Errno_Error e
  end.

(** [status.Error(c, msg)]: nil when the code is OK. *)
Definition status_Error (c : Code) (msg : string) : option error :=
  if decide (c = OK) then None else Some (StatusError c msg).

(** [status.Errorf] with the message already formatted. *)
Definition status_Errorf (c : Code) (msg : string) : option error :=
  status_Error c msg.

(** [status.FromError(err)] followed by [Code()]: the code of a status
    error, [Unknown] for any other non-nil error, [OK] for nil. *)
Definition status_Code (err : option error) : Code :=
  match err with
  | None => OK
  | Some (StatusError c _) => c
  | Some _ => Unknown
  end.

(** The verbs of [fmt] the driver uses.  [%q] is rendered as the string
    between double quotes; the escape sequences Go would produce for quotes,
    backslashes and unprintable bytes are not modelled.  No property below
    depends on the text of a formatted message. *)
Definition dquote : string := String (ascii_of_nat 34) EmptyString.
Definition fmt_q (s : string) : string := dquote +:+ s +:+ dquote.
Definition fmt_v (err : error) : string := error_Error err.

(** The arrow (U+2192, three bytes of UTF-8) of the driver's messages. *)
Definition arrow : string :=
  String (ascii_of_nat 226)
    (String (ascii_of_nat 134) (String (ascii_of_nat 146) EmptyString)).

(** [syscall.MS_RDONLY] and [syscall.MS_BIND] on Linux. *)
Definition MS_RDONLY : Z := 1.
Definition MS_BIND : Z := 4096.

(** ** A state monad for the handlers *)

Definition M (W A : Type) : Type := W -> A * W.

Definition ret {W A : Type} (a : A) : M W A := fun w => (a, w).

Definition bind {W A B : Type} (m : M W A) (k : A -> M W B) : M W B :=
  fun w => let '(a, w') := m w in k a w'.

Notation "'do' x <- m ; k" := (bind m (fun x => k))
  (at level 10, x name, m at level 100, k at level 200, only parsing).

(** What a gRPC method returns: [(resp, err)]. *)
Definition Reply (Resp : Type) : Type := (ptr Resp * option error)%type.

(** A call succeeded when it produced a response and a nil error. *)
Definition succeeded {Resp : Type} (r : Reply Resp) : Prop :=
  is_Some r.1 /\ r.2 = None.

(** A call failed with status code [c] when it produced no response and an
    error carrying that code. *)
Definition failed_with {Resp : Type} (c : Code) (r : Reply Resp) : Prop :=
  r.1 = None /\ exists msg, r.2 = Some (StatusError c msg).

(** ** The host interface

    The calls the driver makes into Go's standard library:
    [filepath.Join], [os.MkdirAll], [os.RemoveAll], [syscall.Mount] and
    [syscall.Unmount].  [H] is the state of the host (file tree and mount
    table).  Each call returns the Go [error] (nil is [None]) and the host
    state afterwards. *)
Class HostOS (H : Type) := {
  filepath_Join : list string -> string;
  os_MkdirAll : string -> Z -> H -> option error * H;
  os_RemoveAll : string -> H -> option error * H;
  syscall_Mount : string -> string -> string -> Z -> string ->
                  H -> option error * H;
  syscall_Unmount : string -> Z -> H -> option error * H
}.

(** ** klog *)

Inductive Severity := INFO | WARNING | ERROR | FATAL.

#[global] Instance Severity_eq_dec : EqDecision Severity.
Proof. solve_decision. Defined.

Section World.
Context {H : Type}.

(** The world a handler runs in: the host, the verbosity klog was started
    with ([-v]) and the lines klog has written. *)
Record World := {
  host : H;
  klog_v : Z;
  klog_out : list (Severity * string)
}.

Definition on_host {A : Type} (f : H -> A * H) : M World A :=
  fun w =>
    let '(a, h') := f (host w) in
    (a, {| host := h'; klog_v := klog_v w; klog_out := klog_out w |}).

Definition klog_write (s : Severity) (msg : string) : M World unit :=
  fun w =>
    (tt, {| host := host w; klog_v := klog_v w;
            klog_out := klog_out w ++ [(s, msg)] |}).

(** [klog.Infof] and [klog.Errorf], the message already formatted. *)
Definition klog_Infof (msg : string) : M World unit := klog_write INFO msg.
Definition klog_Errorf (msg : string) : M World unit := klog_write ERROR msg.

(** [klog.V(level).Infof]: written only when the verbosity reaches
    [level]. *)
Definition klog_V_Infof (level : Z) (msg : string) : M World unit :=
  fun w => if bool_decide (level <= klog_v w) then klog_Infof msg w
           else (tt, w).

End World.

Arguments World : clear implicits.

(** ** The messages of the CSI protocol

    Package [csi] (generated from the protocol's protobuf file).  Each
    message is a record with the fields the driver reads or writes; the
    getters are nil-safe as the generated Go getters are: on a nil message
    they return the zero value.  A nil [map] is the empty map. *)
Module csi.

Module VolumeCapability_AccessMode.
(** [VolumeCapability_AccessMode_Mode] is an [int32]; the protocol names
    eight values and any other number can arrive on the wire. *)
Definition UNKNOWN : Z := 0.
Definition SINGLE_NODE_WRITER : Z := 1.
Definition SINGLE_NODE_READER_ONLY : Z := 2.
Definition MULTI_NODE_READER_ONLY : Z := 3.
Definition MULTI_NODE_SINGLE_WRITER : Z := 4.
Definition MULTI_NODE_MULTI_WRITER : Z := 5.
Definition SINGLE_NODE_SINGLE_WRITER : Z := 6.
Definition SINGLE_NODE_MULTI_WRITER : Z := 7.
Record t := { Mode : Z }.
Definition GetMode (x : ptr t) : Z :=
  match x with Some m => Mode m | None => UNKNOWN end.
End VolumeCapability_AccessMode.

Module VolumeCapability.
(** The [access_type] oneof: a raw block device or a mounted file system. *)
Inductive isVolumeCapability_AccessType :=
  | Block
  | Mount (fs_type : string) (mount_flags : list string).
Record t := {
  AccessType : option isVolumeCapability_AccessType;
  AccessMode : ptr VolumeCapability_AccessMode.t
}.
Definition GetAccessMode (x : ptr t) : ptr VolumeCapability_AccessMode.t :=
  match x with Some c => AccessMode c | None => None end.
End VolumeCapability.

Module CapacityRange.
Record t := { RequiredBytes : Z; LimitBytes : Z }.
Definition GetRequiredBytes (x : ptr t) : Z :=
  match x with Some c => RequiredBytes c | None => 0 end.
End CapacityRange.

Module Volume.
Record t := {
  CapacityBytes : Z;
  VolumeId : string;
  VolumeContext : gmap string string
}.
End Volume.

Module CreateVolumeRequest.
Record t := {
  Name : string;
  CapacityRange : ptr CapacityRange.t;
  VolumeCapabilities : list (ptr VolumeCapability.t);
  Parameters : gmap string string
}.
Definition GetName (x : ptr t) : string :=
  match x with Some r => Name r | None => "" end.
Definition GetCapacityRange (x : ptr t) : ptr CapacityRange.t :=
  match x with Some r => CapacityRange r | None => None end.
Definition GetVolumeCapabilities (x : ptr t) : list (ptr VolumeCapability.t) :=
  match x with Some r => VolumeCapabilities r | None => [] end.
Definition GetParameters (x : ptr t) : gmap string string :=
  match x with Some r => Parameters r | None => ∅ end.
End CreateVolumeRequest.

Module CreateVolumeResponse.
Record t := { Volume : ptr Volume.t }.
End CreateVolumeResponse.

Module DeleteVolumeRequest.
Record t := { VolumeId : string }.
Definition GetVolumeId (x : ptr t) : string :=
  match x with Some r => VolumeId r | None => "" end.
End DeleteVolumeRequest.

Module DeleteVolumeResponse.
Record t := Build { }.
End DeleteVolumeResponse.

Module ValidateVolumeCapabilitiesRequest.
Record t := {
  VolumeId : string;
  VolumeContext : gmap string string;
  VolumeCapabilities : list (ptr VolumeCapability.t);
  Parameters : gmap string string
}.
Definition GetVolumeId (x : ptr t) : string :=
  match x with Some r => VolumeId r | None => "" end.
Definition GetVolumeCapabilities (x : ptr t) : list (ptr VolumeCapability.t) :=
  match x with Some r => VolumeCapabilities r | None => [] end.
End ValidateVolumeCapabilitiesRequest.

Module ValidateVolumeCapabilitiesResponse_Confirmed.
Record t := {
  VolumeContext : gmap string string;
  VolumeCapabilities : list (ptr VolumeCapability.t);
  Parameters : gmap string string
}.
End ValidateVolumeCapabilitiesResponse_Confirmed.

Module ValidateVolumeCapabilitiesResponse.
Record t := {
  Confirmed : ptr ValidateVolumeCapabilitiesResponse_Confirmed.t;
  Message : string
}.
End ValidateVolumeCapabilitiesResponse.

Module ControllerServiceCapability.
(** [ControllerServiceCapability_RPC_Type], an [int32]. *)
Definition RPC_CREATE_DELETE_VOLUME : Z := 1.
(** The [type] oneof has the single alternative [Rpc]. *)
Inductive isControllerServiceCapability_Type := Rpc (Type_ : Z).
Record t := { Type_ : option isControllerServiceCapability_Type }.
End ControllerServiceCapability.

Module ControllerGetCapabilitiesRequest.
Record t := Build { }.
End ControllerGetCapabilitiesRequest.

Module ControllerGetCapabilitiesResponse.
Record t := { Capabilities : list (ptr ControllerServiceCapability.t) }.
End ControllerGetCapabilitiesResponse.

Module GetPluginInfoRequest.
Record t := Build { }.
End GetPluginInfoRequest.

Module GetPluginInfoResponse.
Record t := {
  Name : string;
  VendorVersion : string;
  Manifest : gmap string string
}.
End GetPluginInfoResponse.

Module PluginCapability.
(** [PluginCapability_Service_Type], an [int32]. *)
Definition Service_CONTROLLER_SERVICE : Z := 1.
Inductive isPluginCapability_Type := Service (Type_ : Z).
Record t := { Type_ : option isPluginCapability_Type }.
End PluginCapability.

Module GetPluginCapabilitiesRequest.
Record t := Build { }.
End GetPluginCapabilitiesRequest.

Module GetPluginCapabilitiesResponse.
Record t := { Capabilities : list (ptr PluginCapability.t) }.
End GetPluginCapabilitiesResponse.

Module ProbeRequest.
Record t := Build { }.
End ProbeRequest.

Module ProbeResponse.
(** [Ready] is a [*wrapperspb.BoolValue]; the protocol reads an absent
    value as ready. *)
Record t := { Ready : ptr bool }.
Definition reports_ready (r : t) : bool :=
  match Ready r with Some b => b | None => true end.
End ProbeResponse.

Module NodePublishVolumeRequest.
Record t := {
  VolumeId : string;
  PublishContext : gmap string string;
  StagingTargetPath : string;
  TargetPath : string;
  VolumeCapability : ptr VolumeCapability.t;
  Readonly : bool;
  VolumeContext : gmap string string
}.
Definition GetVolumeId (x : ptr t) : string :=
  match x with Some r => VolumeId r | None => "" end.
Definition GetTargetPath (x : ptr t) : string :=
  match x with Some r => TargetPath r | None => "" end.
Definition GetVolumeCapability (x : ptr t) : ptr VolumeCapability.t :=
  match x with Some r => VolumeCapability r | None => None end.
Definition GetReadonly (x : ptr t) : bool :=
  match x with Some r => Readonly r | None => false end.
End NodePublishVolumeRequest.

Module NodePublishVolumeResponse.
Record t := Build { }.
End NodePublishVolumeResponse.

Module NodeUnpublishVolumeRequest.
Record t := { VolumeId : string; TargetPath : string }.
Definition GetVolumeId (x : ptr t) : string :=
  match x with Some r => VolumeId r | None => "" end.
Definition GetTargetPath (x : ptr t) : string :=
  match x with Some r => TargetPath r | None => "" end.
End NodeUnpublishVolumeRequest.

Module NodeUnpublishVolumeResponse.
Record t := Build { }.
End NodeUnpublishVolumeResponse.

Module NodeServiceCapability.
Inductive isNodeServiceCapability_Type := Rpc (Type_ : Z).
Record t := { Type_ : option isNodeServiceCapability_Type }.
End NodeServiceCapability.

Module NodeGetCapabilitiesRequest.
Record t := Build { }.
End NodeGetCapabilitiesRequest.

Module NodeGetCapabilitiesResponse.
Record t := { Capabilities : list (ptr NodeServiceCapability.t) }.
End NodeGetCapabilitiesResponse.

Module NodeGetInfoRequest.
Record t := Build { }.
End NodeGetInfoRequest.

Module NodeGetInfoResponse.
Record t := { NodeId : string; MaxVolumesPerNode : Z }.
End NodeGetInfoResponse.

End csi.

(** ** driver.go *)

Definition driverName : string := "demo.csi.example.com".

(** [Driver] holds the state for the CSI plugin. *)
Record Driver := { nodeID : string; stateDir : string }.

(** [grpc.UnaryServerInfo]; gRPC hands the interceptor a non-nil one. *)
Record UnaryServerInfo := { FullMethod : string }.

(** ** identity.go *)

Definition driverVersion : string := "v0.1.0".

Record identityServer := { identityServer_d : Driver }.
Record controllerServer := { controllerServer_d : Driver }.
Record nodeServer := { nodeServer_d : Driver }.

Section Handlers.
Context {H : Type} {hostOS : HostOS H}.

(** A unary handler as gRPC passes it to an interceptor.  The
    [context.Context] argument, which no function of the driver reads, is
    left out throughout. *)
Definition UnaryHandler (Req Resp : Type) : Type :=
  Req -> M (World H) (Reply Resp).

(** [logInterceptor] logs every incoming RPC together with any error that
    is returned. *)
Definition logInterceptor {Req Resp : Type} (req : Req)
    (info : UnaryServerInfo) (handler : UnaryHandler Req Resp)
    : M (World H) (Reply Resp) :=
  do _ <- klog_V_Infof 4 ("RPC " +:+ arrow +:+ " " +:+ FullMethod info) ;
  do r <- handler req ;
  let '(resp, err) := r in
  match err with
  | Some e =>
      let st_Code := status_Code err in
      if decide (st_Code <> OK) then
        do _ <- klog_Errorf ("RPC " +:+ FullMethod info +:+ " failed: " +:+ fmt_v e) ;
        ret (resp, err)
      else ret (resp, err)
  | None => ret (resp, err)
  end.

(** [GetPluginInfo] returns the driver name and version. *)
Definition GetPluginInfo (s : identityServer)
    (_ : ptr csi.GetPluginInfoRequest.t)
    : M (World H) (Reply csi.GetPluginInfoResponse.t) :=
  ret (Some {| csi.GetPluginInfoResponse.Name := driverName;
               csi.GetPluginInfoResponse.VendorVersion := driverVersion;
               csi.GetPluginInfoResponse.Manifest := ∅ |},
       None).

(** [GetPluginCapabilities] advertises that this driver implements the
    Controller service. *)
Definition GetPluginCapabilities (s : identityServer)
    (_ : ptr csi.GetPluginCapabilitiesRequest.t)
    : M (World H) (Reply csi.GetPluginCapabilitiesResponse.t) :=
  ret (Some {| csi.GetPluginCapabilitiesResponse.Capabilities :=
                 [ Some {| csi.PluginCapability.Type_ :=
                             Some (csi.PluginCapability.Service
                                     csi.PluginCapability.Service_CONTROLLER_SERVICE) |} ] |},
       None).

(** [Probe] is a health check.  We always return ready. *)
Definition Probe (s : identityServer) (req : ptr csi.ProbeRequest.t)
    : M (World H) (Reply csi.ProbeResponse.t) :=
  match req with
  | None => ret (None, status_Error InvalidArgument "nil request")
  | Some _ => ret (Some {| csi.ProbeResponse.Ready := None |}, None)
  end.

(** ** controller.go *)

(** [CreateVolume] creates a directory on the host to back the requested
    volume.  Using the volume name as the ID makes the operation
    idempotent. *)
Definition CreateVolume (s : controllerServer)
    (req : ptr csi.CreateVolumeRequest.t)
    : M (World H) (Reply csi.CreateVolumeResponse.t) :=
  if decide (csi.CreateVolumeRequest.GetName req = "") then
    ret (None, status_Error InvalidArgument "volume name is required")
  else if decide (length (csi.CreateVolumeRequest.GetVolumeCapabilities req) = 0%nat) then
    ret (None, status_Error InvalidArgument "volume capabilities are required")
  else
    let volumeID := csi.CreateVolumeRequest.GetName req in
    let volumeDir := filepath_Join [stateDir (controllerServer_d s); volumeID] in
    do err <- on_host (os_MkdirAll volumeDir 488 (* 0750 *)) ;
    match err with
    | Some e =>
        ret (None, status_Errorf Internal
                     ("failed to create volume dir " +:+ fmt_q volumeDir
                      +:+ ": " +:+ fmt_v e))
    | None =>
        do _ <- klog_Infof ("CreateVolume: id=" +:+ volumeID +:+ " path=" +:+ volumeDir) ;
        let capacityBytes :=
          match csi.CreateVolumeRequest.GetCapacityRange req with
          | Some cr => csi.CapacityRange.GetRequiredBytes (Some cr)
          | None => 0
          end in
        ret (Some {| csi.CreateVolumeResponse.Volume :=
                       Some {| csi.Volume.VolumeId := volumeID;
                               csi.Volume.CapacityBytes := capacityBytes;
                               csi.Volume.VolumeContext :=
                                 csi.CreateVolumeRequest.GetParameters req |} |},
             None)
    end.

(** [DeleteVolume] removes the directory that backs the volume.  It is
    idempotent: deleting a non-existent volume succeeds. *)
Definition DeleteVolume (s : controllerServer)
    (req : ptr csi.DeleteVolumeRequest.t)
    : M (World H) (Reply csi.DeleteVolumeResponse.t) :=
  if decide (csi.DeleteVolumeRequest.GetVolumeId req = "") then
    ret (None, status_Error InvalidArgument "volume ID is required")
  else
    let volumeDir :=
      filepath_Join [stateDir (controllerServer_d s);
                     csi.DeleteVolumeRequest.GetVolumeId req] in
    do err <- on_host (os_RemoveAll volumeDir) ;
    match err with
    | Some e =>
        ret (None, status_Errorf Internal
                     ("failed to delete volume dir " +:+ fmt_q volumeDir
                      +:+ ": " +:+ fmt_v e))
    | None =>
        do _ <- klog_Infof ("DeleteVolume: id=" +:+ csi.DeleteVolumeRequest.GetVolumeId req
                    +:+ " path=" +:+ volumeDir) ;
        ret (Some csi.DeleteVolumeResponse.Build, None)
    end.

(** The test on one capability in the loop of
    [ValidateVolumeCapabilities]: its mode is none of the three supported
    ones. *)
Definition unsupported_mode (cap : ptr csi.VolumeCapability.t) : bool :=
  let mode :=
    csi.VolumeCapability_AccessMode.GetMode
      (csi.VolumeCapability.GetAccessMode cap) in
  negb (Z.eqb mode csi.VolumeCapability_AccessMode.SINGLE_NODE_WRITER) &&
  negb (Z.eqb mode csi.VolumeCapability_AccessMode.SINGLE_NODE_READER_ONLY) &&
  negb (Z.eqb mode csi.VolumeCapability_AccessMode.MULTI_NODE_READER_ONLY).

(** The [for ... range] loop of [ValidateVolumeCapabilities]: it returns
    from the method at the first unsupported capability ([Some] reply) and
    falls through ([None]) when it has seen them all. *)
Fixpoint validate_loop (caps : list (ptr csi.VolumeCapability.t))
    : option (Reply csi.ValidateVolumeCapabilitiesResponse.t) :=
  match caps with
  | [] => None
  | cap :: rest =>
      if unsupported_mode cap then
        Some (Some {| csi.ValidateVolumeCapabilitiesResponse.Confirmed := None;
                      csi.ValidateVolumeCapabilitiesResponse.Message :=
                        "unsupported access mode" |},
              None)
      else validate_loop rest
  end.

(** [ValidateVolumeCapabilities] confirms that the requested access modes
    are supported. *)
Definition ValidateVolumeCapabilities (s : controllerServer)
    (req : ptr csi.ValidateVolumeCapabilitiesRequest.t)
    : M (World H) (Reply csi.ValidateVolumeCapabilitiesResponse.t) :=
  if decide (csi.ValidateVolumeCapabilitiesRequest.GetVolumeId req = "") then
    ret (None, status_Error InvalidArgument "volume ID is required")
  else if decide (length (csi.ValidateVolumeCapabilitiesRequest.GetVolumeCapabilities req) = 0%nat) then
    ret (None, status_Error InvalidArgument "volume capabilities are required")
  else
    match validate_loop (csi.ValidateVolumeCapabilitiesRequest.GetVolumeCapabilities req) with
    | Some reply => ret reply
    | None =>
        ret (Some {| csi.ValidateVolumeCapabilitiesResponse.Confirmed :=
                       Some {| csi.ValidateVolumeCapabilitiesResponse_Confirmed.VolumeContext := ∅;
                               csi.ValidateVolumeCapabilitiesResponse_Confirmed.VolumeCapabilities :=
                                 csi.ValidateVolumeCapabilitiesRequest.GetVolumeCapabilities req;
                               csi.ValidateVolumeCapabilitiesResponse_Confirmed.Parameters := ∅ |};
                     csi.ValidateVolumeCapabilitiesResponse.Message := "" |},
             None)
    end.

(** [ControllerGetCapabilities] reports the capabilities this controller
    implements. *)
Definition ControllerGetCapabilities (s : controllerServer)
    (_ : ptr csi.ControllerGetCapabilitiesRequest.t)
    : M (World H) (Reply csi.ControllerGetCapabilitiesResponse.t) :=
  ret (Some {| csi.ControllerGetCapabilitiesResponse.Capabilities :=
                 [ Some {| csi.ControllerServiceCapability.Type_ :=
                             Some (csi.ControllerServiceCapability.Rpc
                                     csi.ControllerServiceCapability.RPC_CREATE_DELETE_VOLUME) |} ] |},
       None).

(** ** node.go *)

(** [NodePublishVolume] bind-mounts the volume directory into the pod. *)
Definition NodePublishVolume (s : nodeServer)
    (req : ptr csi.NodePublishVolumeRequest.t)
    : M (World H) (Reply csi.NodePublishVolumeResponse.t) :=
  if decide (csi.NodePublishVolumeRequest.GetVolumeId req = "") then
    ret (None, status_Error InvalidArgument "volume ID is required")
  else if decide (csi.NodePublishVolumeRequest.GetTargetPath req = "") then
    ret (None, status_Error InvalidArgument "target path is required")
  else if decide (csi.NodePublishVolumeRequest.GetVolumeCapability req = None) then
    ret (None, status_Error InvalidArgument "volume capability is required")
  else
    let volumeDir :=
      filepath_Join [stateDir (nodeServer_d s);
                     csi.NodePublishVolumeRequest.GetVolumeId req] in
    let targetPath := csi.NodePublishVolumeRequest.GetTargetPath req in
    do err <- on_host (os_MkdirAll volumeDir 488 (* 0750 *)) ;
    match err with
    | Some e =>
        ret (None, status_Errorf Internal
                     ("failed to create volume dir " +:+ fmt_q volumeDir
                      +:+ ": " +:+ fmt_v e))
    | None =>
        do err <- on_host (os_MkdirAll targetPath 488 (* 0750 *)) ;
        match err with
        | Some e =>
            ret (None, status_Errorf Internal
                         ("failed to create target dir " +:+ fmt_q targetPath
                          +:+ ": " +:+ fmt_v e))
        | None =>
            let flags := MS_BIND in
            let flags :=
              if csi.NodePublishVolumeRequest.GetReadonly req
              then Z.lor flags MS_RDONLY else flags in
            do err <- on_host (syscall_Mount volumeDir targetPath "" flags "") ;
            match err with
            | Some e =>
                ret (None, status_Errorf Internal
                             ("bind mount " +:+ fmt_q volumeDir +:+ " " +:+ arrow
                              +:+ " " +:+ fmt_q targetPath +:+ " failed: "
                              +:+ fmt_v e))
            | None =>
                do _ <- klog_Infof ("NodePublishVolume: id="
                            +:+ csi.NodePublishVolumeRequest.GetVolumeId req
                            +:+ " src=" +:+ volumeDir
                            +:+ " target=" +:+ targetPath) ;
                ret (Some csi.NodePublishVolumeResponse.Build, None)
            end
        end
    end.

(** [NodeUnpublishVolume] unmounts the bind mount created by
    [NodePublishVolume].  It is idempotent: if the path is not mounted
    (EINVAL) we treat it as success. *)
Definition NodeUnpublishVolume (s : nodeServer)
    (req : ptr csi.NodeUnpublishVolumeRequest.t)
    : M (World H) (Reply csi.NodeUnpublishVolumeResponse.t) :=
  if decide (csi.NodeUnpublishVolumeRequest.GetVolumeId req = "") then
    ret (None, status_Error InvalidArgument "volume ID is required")
  else if decide (csi.NodeUnpublishVolumeRequest.GetTargetPath req = "") then
    ret (None, status_Error InvalidArgument "target path is required")
  else
    let targetPath := csi.NodeUnpublishVolumeRequest.GetTargetPath req in
    do err <- on_host (syscall_Unmount targetPath 0) ;
    match err with
    | Some e =>
        if decide (e = ErrnoError EINVAL) then
          do _ <- klog_V_Infof 4 ("NodeUnpublishVolume: " +:+ fmt_q targetPath
                          +:+ " is not mounted, skipping") ;
          ret (Some csi.NodeUnpublishVolumeResponse.Build, None)
        else
          ret (None, status_Errorf Internal
                       ("unmount " +:+ fmt_q targetPath +:+ " failed: "
                        +:+ fmt_v e))
    | None =>
        do _ <- klog_Infof ("NodeUnpublishVolume: id="
                    +:+ csi.NodeUnpublishVolumeRequest.GetVolumeId req
                    +:+ " target=" +:+ targetPath) ;
        ret (Some csi.NodeUnpublishVolumeResponse.Build, None)
    end.

(** [NodeGetCapabilities] reports which optional node-side capabilities we
    support: none. *)
Definition NodeGetCapabilities (s : nodeServer)
    (_ : ptr csi.NodeGetCapabilitiesRequest.t)
    : M (World H) (Reply csi.NodeGetCapabilitiesResponse.t) :=
  ret (Some {| csi.NodeGetCapabilitiesResponse.Capabilities := [] |}, None).

(** [NodeGetInfo] returns the node ID that the driver was started with. *)
Definition NodeGetInfo (s : nodeServer) (_ : ptr csi.NodeGetInfoRequest.t)
    : M (World H) (Reply csi.NodeGetInfoResponse.t) :=
  ret (Some {| csi.NodeGetInfoResponse.NodeId := nodeID (nodeServer_d s);
               csi.NodeGetInfoResponse.MaxVolumesPerNode := 0 |},
       None).

End Handlers.

(** ** A Linux host

    A model of what the five calls of [HostOS] do on the node the plugin
    runs on, after the documentation of Go's [path/filepath], [os] and
    [syscall] packages and of [mount(2)] and [umount2(2)].  Its scope:

    - the file tree holds directories and regular files, no symbolic links;
    - the plugin runs privileged, as mounting requires, so no call is
      refused for lack of permission, and the disk is never full;
    - the working directory is the root (the image sets none), and the
      kernel's walk along a path is taken lexically: [.] and empty elements
      are skipped and [..] steps back to the parent;
    - the mount table is a stack of bind mounts, newest first; the file tree
      is not looked at through the mounts. *)
Module Linux.

(** The string holds a slash. *)
Fixpoint has_slash (s : string) : bool :=
  match s with
  | EmptyString => false
  | String c s' => Ascii.eqb c "/" || has_slash s'
  end.

(** [strings.Split(s, "/")]. *)
Fixpoint split_slash (s : string) : list string :=
  match s with
  | EmptyString => [EmptyString]
  | String c s' =>
      if Ascii.eqb c "/" then EmptyString :: split_slash s'
      else match split_slash s' with
           | [] => [String c EmptyString]
           | e :: es => String c e :: es
           end
  end.

(** The element loop of [filepath.Clean].  [stack] holds the elements
    written so far, last first.  An empty element and [.] are dropped;
    [..] removes the element before it when there is one that is not itself
    [..], is dropped at the root, and is kept at the start of a relative
    path. *)
Fixpoint clean_elems (rooted : bool) (stack : list string)
    (elems : list string) : list string :=
  match elems with
  | [] => rev stack
  | e :: rest =>
      if decide (e = "") then clean_elems rooted stack rest
      else if decide (e = ".") then clean_elems rooted stack rest
      else if decide (e = "..") then
        match stack with
        | top :: stack' =>
            if decide (top = "..") then clean_elems rooted (e :: stack) rest
            else clean_elems rooted stack' rest
        | [] =>
            if rooted then clean_elems rooted [] rest
            else clean_elems rooted [e] rest
        end
      else clean_elems rooted (e :: stack) rest
  end.

Definition is_rooted (path : string) : bool :=
  match path with
  | String c _ => Ascii.eqb c "/"
  | EmptyString => false
  end.

(** [filepath.Clean] on Unix. *)
Definition Clean (path : string) : string :=
  if decide (path = "") then "."
  else
    let elems := clean_elems (is_rooted path) [] (split_slash path) in
    if is_rooted path then "/" +:+ String.concat "/" elems
    else match elems with
         | [] => "."
         | _ => String.concat "/" elems
         end.

(** [filepath.Join] on Unix: the elements from the first non-empty one on,
    joined by slashes and cleaned; the empty string when there is none. *)
Fixpoint Join (elem : list string) : string :=
  match elem with
  | [] => ""
  | e :: rest =>
      if decide (e = "") then Join rest
      else Clean (String.concat "/" elem)
  end.

(** The walk of the kernel along a path, from the root. *)
Definition resolve (path : string) : list string :=
  clean_elems true [] (split_slash path).

(** A node of the file tree. *)
Inductive node :=
  | File
  | Dir (children : gmap string node).

(** [stat] along a list of names, inside the directory with children
    [cs]. *)
Fixpoint walk (p : list string) (cs : gmap string node) : node + Errno :=
  match p with
  | [] => inl (Dir cs)
  | c :: p' =>
      match cs !! c with
      | None => inr ENOENT
      | Some File => match p' with [] => inl File | _ :: _ => inr ENOTDIR end
      | Some (Dir cs') => walk p' cs'
      end
  end.

(** What [os.MkdirAll] leaves of the tree: every missing directory along
    [p] is created; [None] when a regular file is in the way (ENOTDIR), in
    which case nothing was created. *)
Fixpoint mkdir_all (p : list string) (cs : gmap string node)
    : option (gmap string node) :=
  match p with
  | [] => Some cs
  | c :: p' =>
      match cs !! c with
      | Some File => None
      | Some (Dir cs') =>
          match mkdir_all p' cs' with
          | Some cs'' => Some (<[c := Dir cs'']> cs)
          | None => None
          end
      | None =>
          match mkdir_all p' ∅ with
          | Some cs'' => Some (<[c := Dir cs'']> cs)
          | None => None
          end
      end
  end.

(** What [os.RemoveAll] leaves of the tree when the path exists: the node
    at [p] is gone with all it contains.  The root directory itself cannot
    be removed, only emptied. *)
Fixpoint remove_at (p : list string) (cs : gmap string node)
    : gmap string node :=
  match p with
  | [] => ∅
  | c :: p' =>
      match p' with
      | [] => delete c cs
      | _ :: _ =>
          match cs !! c with
          | Some (Dir cs') => <[c := Dir (remove_at p' cs')]> cs
          | _ => cs
          end
      end
  end.

(** One line of the mount table: a bind mount of [mnt_source] on
    [mnt_target], with the flags [mount(2)] was given. *)
Record MountEntry := {
  mnt_source : list string;
  mnt_target : list string;
  mnt_flags : Z
}.

#[global] Instance MountEntry_eq_dec : EqDecision MountEntry.
Proof. solve_decision. Defined.

(** The host: the children of the root directory and the mount table,
    newest mount first. *)
Record Host := {
  files : gmap string node;
  mounts : list MountEntry
}.

(** [os.Stat]. *)
Definition Stat (path : string) (h : Host) : node + Errno :=
  if decide (path = "") then inr ENOENT
  else walk (resolve path) (files h).

(** The mounts in effect on a target path, newest first, and the one on
    top, which is the one a process sees there; the ones below stay mounted
    until the ones above them are unmounted. *)
Definition bindings_at (target : string) (h : Host) : list MountEntry :=
  filter (fun m => mnt_target m = resolve target) (mounts h).

Definition top_binding (target : string) (h : Host) : option MountEntry :=
  head (bindings_at target h).

(** Some mount sits on [p] or below it. *)
Definition is_prefix_of (p q : list string) : bool :=
  bool_decide (take (length p) q = p).

Definition busy (p : list string) (h : Host) : bool :=
  existsb (fun m => is_prefix_of p (mnt_target m)) (mounts h).

(** [os.MkdirAll]: a path that is a directory is success; the empty path
    and a path through a regular file are errors. *)
Definition MkdirAll (path : string) (perm : Z) (h : Host)
    : option error * Host :=
  if decide (path = "") then (Some (PathError "mkdir" path ENOENT), h)
  else
    match mkdir_all (resolve path) (files h) with
    | Some cs => (None, {| files := cs; mounts := mounts h |})
    | None => (Some (PathError "mkdir" path ENOTDIR), h)
    end.

(** The final element of the path is [.] ([endsWithDot] of package
    [os]). *)
Fixpoint ends_with_slash_dot (s : string) : bool :=
  match s with
  | EmptyString => false
  | String c s' =>
      (Ascii.eqb c "/" && bool_decide (s' = ".")) || ends_with_slash_dot s'
  end.

Definition endsWithDot (path : string) : bool :=
  bool_decide (path = ".") || ends_with_slash_dot path.

(** [os.RemoveAll]: nil for the empty path and for a path that does not
    exist; EINVAL for a path whose final element is [.]; an error for a
    path through a regular file (ENOTDIR) and for a tree that holds a
    mount point (EBUSY; that Go removes what it can reach before it gives
    up is not modelled) or is the root. *)
Definition RemoveAll (path : string) (h : Host) : option error * Host :=
  if decide (path = "") then (None, h)
  else if endsWithDot path then (Some (PathError "RemoveAll" path EINVAL), h)
  else
    let p := resolve path in
    match walk p (files h) with
    | inr ENOENT => (None, h)
    | inr e => (Some (PathError "unlinkat" path e), h)
    | inl _ =>
        if busy p h then (Some (PathError "unlinkat" path EBUSY), h)
        else
          let h' := {| files := remove_at p (files h); mounts := mounts h |} in
          match p with
          | [] => (Some (PathError "unlinkat" path EBUSY), h')
          | _ :: _ => (None, h')
          end
    end.

Definition same_kind (a b : node) : bool :=
  match a, b with
  | File, File => true
  | Dir _, Dir _ => true
  | _, _ => false
  end.

(** [syscall.Mount] ([mount(2)]).  With [MS_BIND] the file system type and
    the data are ignored; source and target must exist and be both
    directories or both files; the new mount goes on top of whatever is
    mounted on the target already.  Without [MS_BIND] the empty file system
    type names no file system. *)
Definition Mount (source target fstype : string) (flags : Z) (data : string)
    (h : Host) : option error * Host :=
  if decide (Z.land flags MS_BIND = 0) then (Some (ErrnoError ENODEV), h)
  else
    match Stat source h, Stat target h with
    | inr e, _ => (Some (ErrnoError e), h)
    | inl _, inr e => (Some (ErrnoError e), h)
    | inl s, inl t =>
        if same_kind s t then
          (None, {| files := files h;
                    mounts := {| mnt_source := resolve source;
                                 mnt_target := resolve target;
                                 mnt_flags := flags |} :: mounts h |})
        else (Some (ErrnoError ENOTDIR), h)
    end.

(** The mount table without the newest mount on [t]; [None] when nothing
    is mounted there. *)
Fixpoint pop_mount (t : list string) (ms : list MountEntry)
    : option (list MountEntry) :=
  match ms with
  | [] => None
  | m :: ms' =>
      if decide (mnt_target m = t) then Some ms'
      else match pop_mount t ms' with
           | Some ms'' => Some (m :: ms'')
           | None => None
           end
  end.

(** [syscall.Unmount] ([umount2(2)]): the newest mount on the target is
    removed; a target that does not exist is ENOENT (or ENOTDIR), one that
    exists and is not a mount point is EINVAL.  A mount that is still in
    use (EBUSY) is not modelled. *)
Definition Unmount (target : string) (flags : Z) (h : Host)
    : option error * Host :=
  if decide (target = "") then (Some (ErrnoError ENOENT), h)
  else
    match pop_mount (resolve target) (mounts h) with
    | Some ms => (None, {| files := files h; mounts := ms |})
    | None =>
        match walk (resolve target) (files h) with
        | inr e => (Some (ErrnoError e), h)
        | inl _ => (Some (ErrnoError EINVAL), h)
        end
    end.

#[global] Instance hostOS : HostOS Host := {
  filepath_Join := Join;
  os_MkdirAll := MkdirAll;
  os_RemoveAll := RemoveAll;
  syscall_Mount := Mount;
  syscall_Unmount := Unmount
}.

End Linux.

(** ** Vocabulary of the specification *)

(** The access mode a capability asks for. *)
Definition requested_mode (cap : ptr csi.VolumeCapability.t) : Z :=
  csi.VolumeCapability_AccessMode.GetMode (csi.VolumeCapability.GetAccessMode cap).

(** The allow-list of the specification: single-writer, single-reader,
    multi-reader. *)
Definition allowed_modes : list Z :=
  [ csi.VolumeCapability_AccessMode.SINGLE_NODE_WRITER;
    csi.VolumeCapability_AccessMode.SINGLE_NODE_READER_ONLY;
    csi.VolumeCapability_AccessMode.MULTI_NODE_READER_ONLY ].

Definition allowed (cap : ptr csi.VolumeCapability.t) : Prop :=
  requested_mode cap ∈ allowed_modes.

(** A capability without an access mode, or with the zero mode. *)
Definition mode_unspecified (cap : ptr csi.VolumeCapability.t) : Prop :=
  csi.VolumeCapability.GetAccessMode cap = None \/
  requested_mode cap = csi.VolumeCapability_AccessMode.UNKNOWN.

(** The soft rejection: a response without confirmation that carries a
    non-empty message, and no error. *)
Definition soft_rejection (r : Reply csi.ValidateVolumeCapabilitiesResponse.t)
    : Prop :=
  r.2 = None /\
  exists resp, r.1 = Some resp /\
    csi.ValidateVolumeCapabilitiesResponse.Confirmed resp = None /\
    csi.ValidateVolumeCapabilitiesResponse.Message resp <> "".

(** A confirmation that echoes the capabilities [caps], and no error. *)
Definition confirms (caps : list (ptr csi.VolumeCapability.t))
    (r : Reply csi.ValidateVolumeCapabilitiesResponse.t) : Prop :=
  r.2 = None /\
  exists resp c, r.1 = Some resp /\
    csi.ValidateVolumeCapabilitiesResponse.Confirmed resp = Some c /\
    csi.ValidateVolumeCapabilitiesResponse_Confirmed.VolumeCapabilities c = caps.

(** The capacity the specification describes: the required bytes of the
    capacity range, zero without a range. *)
Definition requested_capacity (req : ptr csi.CreateVolumeRequest.t) : Z :=
  match csi.CreateVolumeRequest.GetCapacityRange req with
  | Some cr => csi.CapacityRange.RequiredBytes cr
  | None => 0
  end.

(** An element as [filepath.Clean] writes it: without slash, not [.] and
    not empty. *)
Definition clean_elem (e : string) : Prop :=
  Linux.has_slash e = false /\ e <> "." /\ e <> "".

(** The volume id a [CreateVolume] reply carries. *)
Definition reply_volume_id (r : Reply csi.CreateVolumeResponse.t)
    : option string :=
  match r.1 with
  | Some resp =>
      match csi.CreateVolumeResponse.Volume resp with
      | Some v => Some (csi.Volume.VolumeId v)
      | None => None
      end
  | None => None
  end.

(** The backing path of a volume: [state_root / id]. *)
Definition backing_path (d : Driver) (volume_id : string) : string :=
  Linux.Join [stateDir d; volume_id].

(** The flags [NodePublishVolume] hands to [mount(2)]. *)
Definition publish_flags (req : ptr csi.NodePublishVolumeRequest.t) : Z :=
  if csi.NodePublishVolumeRequest.GetReadonly req
  then Z.lor MS_BIND MS_RDONLY else MS_BIND.

(** The bind mount of a volume's backing directory on a target path. *)
Definition binding_of (d : Driver) (req : ptr csi.NodePublishVolumeRequest.t)
    : Linux.MountEntry :=
  {| Linux.mnt_source :=
       Linux.resolve
         (backing_path d (csi.NodePublishVolumeRequest.GetVolumeId req));
     Linux.mnt_target :=
       Linux.resolve (csi.NodePublishVolumeRequest.GetTargetPath req);
     Linux.mnt_flags := publish_flags req |}.


(** ** Sample hosts and requests *)

(** A node right after the driver has started with the default state
    directory: the state directory exists and is empty, nothing is
    mounted. *)
Definition fresh_host : Linux.Host :=
  {| Linux.files :=
       {[ "var" := Linux.Dir
            {[ "lib" := Linux.Dir
                 {[ "demo-csi" := Linux.Dir {[ "volumes" := Linux.Dir ∅ ]} ]} ]} ]};
     Linux.mounts := [] |}.

(** The same node with volume [pvc-1] created and a file written into it by
    a workload. *)
Definition used_host : Linux.Host :=
  {| Linux.files :=
       {[ "var" := Linux.Dir
            {[ "lib" := Linux.Dir
                 {[ "demo-csi" := Linux.Dir
                      {[ "volumes" := Linux.Dir
                           {[ "pvc-1" := Linux.Dir
                                {[ "hello.txt" := Linux.File ]} ]} ]} ]} ]} ]};
     Linux.mounts := [] |}.

Definition world_of (h : Linux.Host) : World Linux.Host :=
  {| host := h; klog_v := 0; klog_out := [] |}.

Definition demo_driver : Driver :=
  {| nodeID := "node-1"; stateDir := "/var/lib/demo-csi/volumes" |}.

Definition demo_identity : identityServer := {| identityServer_d := demo_driver |}.
Definition demo_controller : controllerServer := {| controllerServer_d := demo_driver |}.
Definition demo_node : nodeServer := {| nodeServer_d := demo_driver |}.

Definition single_writer : csi.VolumeCapability.t :=
  {| csi.VolumeCapability.AccessType := Some (csi.VolumeCapability.Mount "" []);
     csi.VolumeCapability.AccessMode :=
       Some {| csi.VolumeCapability_AccessMode.Mode :=
                 csi.VolumeCapability_AccessMode.SINGLE_NODE_WRITER |} |}.

Definition multi_writer : csi.VolumeCapability.t :=
  {| csi.VolumeCapability.AccessType := Some (csi.VolumeCapability.Mount "" []);
     csi.VolumeCapability.AccessMode :=
       Some {| csi.VolumeCapability_AccessMode.Mode :=
                 csi.VolumeCapability_AccessMode.MULTI_NODE_MULTI_WRITER |} |}.

Definition no_mode : csi.VolumeCapability.t :=
  {| csi.VolumeCapability.AccessType := Some (csi.VolumeCapability.Mount "" []);
     csi.VolumeCapability.AccessMode := None |}.

(** [create_volume(name="pvc-1", capabilities=[single-writer],
    capacity=1Gi)]. *)
Definition create_pvc1 : csi.CreateVolumeRequest.t :=
  {| csi.CreateVolumeRequest.Name := "pvc-1";
     csi.CreateVolumeRequest.CapacityRange :=
       Some {| csi.CapacityRange.RequiredBytes := 1073741824;
               csi.CapacityRange.LimitBytes := 0 |};
     csi.CreateVolumeRequest.VolumeCapabilities := [Some single_writer];
     csi.CreateVolumeRequest.Parameters := ∅ |}.

Definition delete_of (id : string) : csi.DeleteVolumeRequest.t :=
  {| csi.DeleteVolumeRequest.VolumeId := id |}.

Definition validate_of (id : string) (caps : list (ptr csi.VolumeCapability.t))
    : csi.ValidateVolumeCapabilitiesRequest.t :=
  {| csi.ValidateVolumeCapabilitiesRequest.VolumeId := id;
     csi.ValidateVolumeCapabilitiesRequest.VolumeContext := ∅;
     csi.ValidateVolumeCapabilitiesRequest.VolumeCapabilities := caps;
     csi.ValidateVolumeCapabilitiesRequest.Parameters := ∅ |}.

(** [publish(volume_id, target_path, capability=single-writer,
    read_only=false)]. *)
Definition publish_of (id target : string) : csi.NodePublishVolumeRequest.t :=
  {| csi.NodePublishVolumeRequest.VolumeId := id;
     csi.NodePublishVolumeRequest.PublishContext := ∅;
     csi.NodePublishVolumeRequest.StagingTargetPath := "";
     csi.NodePublishVolumeRequest.TargetPath := target;
     csi.NodePublishVolumeRequest.VolumeCapability := Some single_writer;
     csi.NodePublishVolumeRequest.Readonly := false;
     csi.NodePublishVolumeRequest.VolumeContext := ∅ |}.

Definition unpublish_of (id target : string) : csi.NodeUnpublishVolumeRequest.t :=
  {| csi.NodeUnpublishVolumeRequest.VolumeId := id;
     csi.NodeUnpublishVolumeRequest.TargetPath := target |}.

(** ** The constructor of the driver *)

(** The error [fmt.Errorf] builds with the verb [%w]: a message around the
    error it wraps. *)
Record wrapError := { wrapError_msg : string; wrapError_err : error }.

(** [New] creates a new Driver instance. *)
Definition New {H : Type} {hostOS : HostOS H} (nodeID stateDir : string)
    : H -> (ptr Driver * option wrapError) * H :=
  fun h =>
    let '(err, h') := os_MkdirAll stateDir 488 (* 0750 *) h in
    match err with
    | Some e =>
        ((None,
          Some {| wrapError_msg :=
                    "failed to create state dir " +:+ fmt_q stateDir
                    +:+ ": " +:+ fmt_v e;
                  wrapError_err := e |}),
         h')
    | None => ((Some {| nodeID := nodeID; stateDir := stateDir |}, None), h')
    end.

(** A volume id that is one plain path element: not empty, without slash,
    and neither [.] nor [..]. *)
Definition plain_id (id : string) : Prop :=
  Linux.has_slash id = false /\ id <> "" /\ id <> "." /\ id <> "..".

(** A host with nothing on it, and one on which a regular file sits where
    the state directory should be. *)
Definition empty_host : Linux.Host :=
  {| Linux.files := ∅; Linux.mounts := [] |}.


(** * Properties *)

(** ** The monad *)

Lemma bind_run {W A B : Type} (m : M W A) (k : A -> M W B) (w : W) :
  bind m k w = k (m w).1 (m w).2.
Proof. unfold bind. by destruct (m w). Qed.

Lemma on_host_host {H A : Type} (f : H -> A * H) (w : World H) :
  (on_host f w).1 = (f (host w)).1 /\ host (on_host f w).2 = (f (host w)).2 /\
  klog_v (on_host f w).2 = klog_v w /\ klog_out (on_host f w).2 = klog_out w.
Proof. unfold on_host. by destruct (f (host w)). Qed.

Lemma klog_V_Infof_host {H : Type} (level : Z) (msg : string) (w : World H) :
  host (klog_V_Infof level msg w).2 = host w.
Proof. unfold klog_V_Infof. by case_bool_decide. Qed.

Lemma length_zero_nil {A : Type} (l : list A) : length l = 0%nat <-> l = [].
Proof. by destruct l. Qed.

(** ** Identity service *)

Section IdentityFacts.
Context {H : Type}.

(** C8: [GetPluginInfo] answers every call with the fixed pair of driver
    name and version and a nil error; [Probe] answers every present request
    with a response that reads as ready and a nil error, and returns an
    error, [InvalidArgument], exactly when the request is nil.  Neither
    touches the world. *)
Theorem identity_fixed_answers (s : identityServer) (w : World H) :
  (forall req,
     exists resp,
       GetPluginInfo s req w = ((Some resp, None), w) /\
       csi.GetPluginInfoResponse.Name resp = "demo.csi.example.com" /\
       csi.GetPluginInfoResponse.VendorVersion resp = "v0.1.0") /\
  (forall req,
     exists resp,
       Probe s (Some req) w = ((Some resp, None), w) /\
       csi.ProbeResponse.reports_ready resp = true) /\
  (forall req, (Probe s req w).1.2 <> None <-> req = None) /\
  failed_with InvalidArgument (Probe s None w).1.
Proof.
  repeat split.
  - intros req. eexists. by repeat split.
  - intros req. eexists. by repeat split.
  - intros Herr. destruct req; [by destruct Herr | done].
  - by intros ->.
  - by eexists.
Qed.

End IdentityFacts.

(** ** The logging interceptor *)

Section InterceptorFacts.
Context {H : Type} {hostOS : HostOS H}.

(** C7: the interceptor returns exactly the pair (response, error) its
    handler returned.  The handler is run on the caller's host (the world it
    sees differs from the caller's by the log line written on entry), and
    the host it leaves is the host the interceptor leaves. *)
Theorem logInterceptor_transparent {Req Resp : Type} (req : Req)
    (info : UnaryServerInfo) (handler : UnaryHandler Req Resp) (w : World H) :
  let w_in := (klog_V_Infof 4 ("RPC " +:+ arrow +:+ " " +:+ FullMethod info) w).2 in
  host w_in = host w /\
  (logInterceptor req info handler w).1 = (handler req w_in).1 /\
  host (logInterceptor req info handler w).2 = host (handler req w_in).2.
Proof.
  intros w_in. split; [apply klog_V_Infof_host |].
  unfold logInterceptor. rewrite bind_run. fold w_in.
  rewrite bind_run. destruct (handler req w_in) as [[resp err] w'].
  simpl. destruct err as [e|]; simpl; [| done].
  case_decide; [| done]. by rewrite bind_run.
Qed.

End InterceptorFacts.

(** ** Capability validation *)

Lemma unsupported_mode_allowed (cap : ptr csi.VolumeCapability.t) :
  unsupported_mode cap = false <-> allowed cap.
Proof.
  unfold unsupported_mode, allowed, allowed_modes.
  fold (requested_mode cap). generalize (requested_mode cap). intros m.
  rewrite !elem_of_cons, elem_of_nil.
  destruct (Z.eqb_spec m csi.VolumeCapability_AccessMode.SINGLE_NODE_WRITER);
  destruct (Z.eqb_spec m csi.VolumeCapability_AccessMode.SINGLE_NODE_READER_ONLY);
  destruct (Z.eqb_spec m csi.VolumeCapability_AccessMode.MULTI_NODE_READER_ONLY);
  simpl; naive_solver.
Qed.

Lemma unsupported_mode_not_allowed (cap : ptr csi.VolumeCapability.t) :
  unsupported_mode cap = true <-> ~ allowed cap.
Proof.
  rewrite <- unsupported_mode_allowed. by destruct (unsupported_mode cap).
Qed.

(** The loop falls through exactly when every capability is allowed. *)
Lemma validate_loop_None (caps : list (ptr csi.VolumeCapability.t)) :
  validate_loop caps = None <-> Forall allowed caps.
Proof.
  induction caps as [| cap rest IH]; simpl.
  - split; [constructor | done].
  - rewrite Forall_cons. destruct (unsupported_mode cap) eqn:Hcap.
    + apply unsupported_mode_not_allowed in Hcap. naive_solver.
    + apply unsupported_mode_allowed in Hcap. naive_solver.
Qed.

(** When the loop returns, it returns the soft rejection. *)
Lemma validate_loop_Some (caps : list (ptr csi.VolumeCapability.t))
    (r : Reply csi.ValidateVolumeCapabilitiesResponse.t) :
  validate_loop caps = Some r -> soft_rejection r.
Proof.
  induction caps as [| cap rest IH]; simpl; [done |].
  destruct (unsupported_mode cap); [| done].
  intros [= <-]. split; [done |]. eexists. by repeat split.
Qed.

Section ValidateFacts.
Context {H : Type} {hostOS : HostOS H}.

(** For a request that passes the two argument checks, the reply is the
    outcome of the loop and the world is left as it was. *)
Lemma ValidateVolumeCapabilities_run (s : controllerServer)
    (req : ptr csi.ValidateVolumeCapabilitiesRequest.t) (w : World H) :
  csi.ValidateVolumeCapabilitiesRequest.GetVolumeId req <> "" ->
  csi.ValidateVolumeCapabilitiesRequest.GetVolumeCapabilities req <> [] ->
  (ValidateVolumeCapabilities s req w).2 = w /\
  match validate_loop (csi.ValidateVolumeCapabilitiesRequest.GetVolumeCapabilities req) with
  | Some r => (ValidateVolumeCapabilities s req w).1 = r
  | None =>
      confirms (csi.ValidateVolumeCapabilitiesRequest.GetVolumeCapabilities req)
        (ValidateVolumeCapabilities s req w).1
  end.
Proof.
  intros Hid Hcaps. unfold ValidateVolumeCapabilities.
  case_decide; [done |]. case_decide as Hlen.
  { by apply length_zero_nil in Hlen. }
  destruct (validate_loop _); simpl; [done |].
  split; [done |]. split; [done |]. by do 2 eexists.
Qed.

(** One capability outside the allow-list is enough for the soft
    rejection. *)
Lemma ValidateVolumeCapabilities_rejects (s : controllerServer)
    (req : ptr csi.ValidateVolumeCapabilitiesRequest.t) (w : World H) :
  csi.ValidateVolumeCapabilitiesRequest.GetVolumeId req <> "" ->
  Exists (fun cap => ~ allowed cap)
    (csi.ValidateVolumeCapabilitiesRequest.GetVolumeCapabilities req) ->
  soft_rejection (ValidateVolumeCapabilities s req w).1.
Proof.
  intros Hid Hex.
  assert (csi.ValidateVolumeCapabilitiesRequest.GetVolumeCapabilities req <> [])
    as Hcaps by (intros Hnil; rewrite Hnil in Hex; by apply Exists_nil in Hex).
  destruct (ValidateVolumeCapabilities_run s req w Hid Hcaps) as [_ Hrun].
  destruct (validate_loop _) as [r' |] eqn:Hloop.
  - rewrite Hrun. by eapply validate_loop_Some.
  - apply validate_loop_None in Hloop.
    apply Exists_exists in Hex as (cap & Hin & Hno).
    rewrite Forall_forall in Hloop. naive_solver.
Qed.

(** With every capability in the allow-list the reply is the confirmation
    of the requested capabilities. *)
Lemma ValidateVolumeCapabilities_confirms (s : controllerServer)
    (req : ptr csi.ValidateVolumeCapabilitiesRequest.t) (w : World H) :
  csi.ValidateVolumeCapabilitiesRequest.GetVolumeId req <> "" ->
  csi.ValidateVolumeCapabilitiesRequest.GetVolumeCapabilities req <> [] ->
  Forall allowed (csi.ValidateVolumeCapabilitiesRequest.GetVolumeCapabilities req) ->
  confirms (csi.ValidateVolumeCapabilitiesRequest.GetVolumeCapabilities req)
    (ValidateVolumeCapabilities s req w).1.
Proof.
  intros Hid Hcaps Hall.
  destruct (ValidateVolumeCapabilities_run s req w Hid Hcaps) as [_ Hrun].
  apply validate_loop_None in Hall. by rewrite Hall in Hrun.
Qed.

(** C3: for a request with a volume id and at least one capability, a
    capability whose access mode is outside the allow-list makes the call
    return, without error, a response with no confirmation and a non-empty
    message; when every mode is in the allow-list the call returns a
    confirmation that echoes the requested capabilities unchanged. *)
Theorem ValidateVolumeCapabilities_allow_list (s : controllerServer)
    (req : ptr csi.ValidateVolumeCapabilitiesRequest.t) (w : World H) :
  csi.ValidateVolumeCapabilitiesRequest.GetVolumeId req <> "" ->
  csi.ValidateVolumeCapabilitiesRequest.GetVolumeCapabilities req <> [] ->
  let caps := csi.ValidateVolumeCapabilitiesRequest.GetVolumeCapabilities req in
  let r := (ValidateVolumeCapabilities s req w).1 in
  (Exists (fun cap => ~ allowed cap) caps -> soft_rejection r) /\
  (Forall allowed caps -> confirms caps r).
Proof.
  intros Hid Hcaps caps r. split.
  - by apply ValidateVolumeCapabilities_rejects.
  - by apply ValidateVolumeCapabilities_confirms.
Qed.

(** An absent or unspecified access mode is outside the allow-list. *)
Lemma mode_unspecified_not_allowed (cap : ptr csi.VolumeCapability.t) :
  mode_unspecified cap -> ~ allowed cap.
Proof.
  intros Hmode.
  assert (requested_mode cap = csi.VolumeCapability_AccessMode.UNKNOWN) as Hm.
  { destruct Hmode as [Hnone | Hm]; [| done].
    unfold requested_mode. by rewrite Hnone. }
  apply unsupported_mode_not_allowed. unfold unsupported_mode.
  fold (requested_mode cap). by rewrite Hm.
Qed.

(** C10: a request with a volume id whose capability list holds a
    capability with an absent or unspecified access mode gets the soft
    rejection (no confirmation, a non-empty message, no error), not an
    [InvalidArgument] error. *)
Theorem ValidateVolumeCapabilities_unspecified_mode (s : controllerServer)
    (req : ptr csi.ValidateVolumeCapabilitiesRequest.t) (w : World H)
    (cap : ptr csi.VolumeCapability.t) :
  csi.ValidateVolumeCapabilitiesRequest.GetVolumeId req <> "" ->
  cap ∈ csi.ValidateVolumeCapabilitiesRequest.GetVolumeCapabilities req ->
  mode_unspecified cap ->
  soft_rejection (ValidateVolumeCapabilities s req w).1 /\
  ~ failed_with InvalidArgument (ValidateVolumeCapabilities s req w).1.
Proof.
  intros Hid Hin Hmode.
  assert (soft_rejection (ValidateVolumeCapabilities s req w).1) as Hsoft.
  { apply ValidateVolumeCapabilities_rejects; [done |].
    apply Exists_exists. exists cap. split; [done |].
    by apply mode_unspecified_not_allowed. }
  split; [done |].
  destruct Hsoft as [_ (resp & Hresp & _)]. intros [Hnone _]. congruence.
Qed.

(** C9: [ValidateVolumeCapabilities] leaves the world, and with it the
    volume store, exactly as it found it, and its reply does not depend on
    the world it runs in; with a volume id and allowed access modes it
    confirms on every host, whether or not the volume was ever created. *)
Theorem ValidateVolumeCapabilities_frame (s : controllerServer)
    (req : ptr csi.ValidateVolumeCapabilitiesRequest.t) (w : World H) :
  csi.ValidateVolumeCapabilitiesRequest.GetVolumeId req <> "" ->
  csi.ValidateVolumeCapabilitiesRequest.GetVolumeCapabilities req <> [] ->
  Forall allowed (csi.ValidateVolumeCapabilitiesRequest.GetVolumeCapabilities req) ->
  (ValidateVolumeCapabilities s req w).2 = w /\
  confirms (csi.ValidateVolumeCapabilitiesRequest.GetVolumeCapabilities req)
    (ValidateVolumeCapabilities s req w).1 /\
  (forall (H' : Type) (hostOS' : HostOS H') (w' : World H'),
     (ValidateVolumeCapabilities s req w').1 = (ValidateVolumeCapabilities s req w).1 /\
     (ValidateVolumeCapabilities s req w').2 = w').
Proof.
  intros Hid Hcaps Hall. split; [| split].
  - apply (ValidateVolumeCapabilities_run s req w Hid Hcaps).
  - by apply ValidateVolumeCapabilities_confirms.
  - intros H' hostOS' w'. split.
    + unfold ValidateVolumeCapabilities.
      repeat case_decide; try done. by destruct (validate_loop _).
    + unfold ValidateVolumeCapabilities.
      repeat case_decide; try done. by destruct (validate_loop _).
Qed.

End ValidateFacts.

(** ** Volume creation: the response *)

(** What [CreateVolume] does with a request that passes the two argument
    checks: one [os.MkdirAll] of the backing path; its error decides
    between an [Internal] error and the volume description, which is built
    from the request alone. *)
Lemma CreateVolume_run {H : Type} {hostOS : HostOS H} (s : controllerServer)
    (req : ptr csi.CreateVolumeRequest.t) (w : World H) :
  csi.CreateVolumeRequest.GetName req <> "" ->
  csi.CreateVolumeRequest.GetVolumeCapabilities req <> [] ->
  let volumeDir :=
    filepath_Join [stateDir (controllerServer_d s);
                   csi.CreateVolumeRequest.GetName req] in
  let r := CreateVolume s req w in
  host r.2 = (os_MkdirAll volumeDir 488 (host w)).2 /\
  match (os_MkdirAll volumeDir 488 (host w)).1 with
  | Some e => failed_with Internal r.1
  | None =>
      r.1 = (Some {| csi.CreateVolumeResponse.Volume :=
                       Some {| csi.Volume.VolumeId := csi.CreateVolumeRequest.GetName req;
                               csi.Volume.CapacityBytes := requested_capacity req;
                               csi.Volume.VolumeContext :=
                                 csi.CreateVolumeRequest.GetParameters req |} |},
             None)
  end.
Proof.
  intros Hname Hcaps volumeDir r. subst r. unfold CreateVolume.
  case_decide; [done |]. case_decide as Hlen.
  { by apply length_zero_nil in Hlen. }
  fold volumeDir. rewrite bind_run.
  destruct (on_host_host (os_MkdirAll volumeDir 488) w) as (-> & Hhost & _).
  destruct ((os_MkdirAll volumeDir 488 (host w)).1) as [e |] eqn:Herr.
  - simpl. split; [done |]. split; [done |]. by eexists.
  - rewrite bind_run. simpl. split; [done |].
    unfold requested_capacity.
    by destruct (csi.CreateVolumeRequest.GetCapacityRange req).
Qed.

(** C6: for a request with a name and at least one capability, a
    successful response carries the request's name as volume id, the
    required bytes of the capacity range (zero without a range) as capacity
    and the request's parameters as context.  The response is determined by
    the request: it is the same on every host on which the call succeeds,
    so nothing measured on the file system enters the capacity. *)
Theorem CreateVolume_response {H : Type} {hostOS : HostOS H}
    (s : controllerServer) (req : ptr csi.CreateVolumeRequest.t) (w : World H) :
  csi.CreateVolumeRequest.GetName req <> "" ->
  csi.CreateVolumeRequest.GetVolumeCapabilities req <> [] ->
  succeeded (CreateVolume s req w).1 ->
  (exists resp v,
     (CreateVolume s req w).1 = (Some resp, None) /\
     csi.CreateVolumeResponse.Volume resp = Some v /\
     csi.Volume.VolumeId v = csi.CreateVolumeRequest.GetName req /\
     csi.Volume.CapacityBytes v = requested_capacity req /\
     csi.Volume.VolumeContext v = csi.CreateVolumeRequest.GetParameters req) /\
  (forall (H' : Type) (hostOS' : HostOS H') (w' : World H'),
     succeeded (CreateVolume s req w').1 ->
     (CreateVolume s req w').1 = (CreateVolume s req w).1).
Proof.
  intros Hname Hcaps Hok.
  pose proof (CreateVolume_run s req w Hname Hcaps) as [_ Hrun]. simpl in Hrun.
  destruct ((os_MkdirAll _ 488 (host w)).1) as [e |].
  { destruct Hok as [[resp Hresp] _]. destruct Hrun as [Hnone _]. congruence. }
  split.
  - do 2 eexists. by repeat split.
  - intros H' hostOS' w' Hok'.
    pose proof (CreateVolume_run s req w' Hname Hcaps) as [_ Hrun']. simpl in Hrun'.
    destruct ((os_MkdirAll _ 488 (host w')).1) as [e |]; [| congruence].
    destruct Hok' as [[resp Hresp] _]. destruct Hrun' as [Hnone _]. congruence.
Qed.

(** ** The Linux host: paths *)

Lemma split_slash_no_slash (s : string) :
  Forall (fun e => Linux.has_slash e = false) (Linux.split_slash s).
Proof.
  induction s as [| c s IH]; simpl.
  - by repeat constructor.
  - destruct (Ascii.eqb c "/") eqn:Hc.
    + by constructor.
    + destruct (Linux.split_slash s) as [| e es].
      * repeat constructor. simpl. by rewrite Hc.
      * apply Forall_cons in IH as [He Hes]. constructor; [| done].
        simpl. by rewrite Hc.
Qed.

Lemma clean_elems_clean (rooted : bool) (elems stack : list string) :
  Forall (fun e => Linux.has_slash e = false) elems ->
  Forall clean_elem stack ->
  Forall clean_elem (Linux.clean_elems rooted stack elems).
Proof.
  revert stack. induction elems as [| e rest IH]; intros stack Helems Hstack.
  - simpl. by apply Forall_rev.
  - apply Forall_cons in Helems as [He Hrest]. simpl.
    case_decide; [by apply IH |]. case_decide; [by apply IH |].
    assert (clean_elem e) as Hce by done.
    case_decide.
    + destruct stack as [| top stack'].
      * destruct rooted; apply IH; try done. by repeat constructor.
      * case_decide; apply IH; try done.
        -- by constructor.
        -- by apply Forall_cons in Hstack as [_ ?].
    + apply IH; [done |]. by constructor.
Qed.

Lemma ends_with_slash_dot_app (e s : string) :
  Linux.has_slash e = false ->
  Linux.ends_with_slash_dot (e +:+ s) = Linux.ends_with_slash_dot s.
Proof.
  induction e as [| c e IH]; simpl; [done |].
  intros [Hc He]%orb_false_elim. rewrite Hc. simpl. by apply IH.
Qed.

Lemma ends_with_slash_dot_no_slash (e : string) :
  Linux.has_slash e = false -> Linux.ends_with_slash_dot e = false.
Proof.
  induction e as [| c e IH]; simpl; [done |].
  intros [Hc He]%orb_false_elim. rewrite Hc. simpl. by apply IH.
Qed.

Lemma ends_with_slash_dot_slash (t : string) :
  Linux.ends_with_slash_dot ("/" +:+ t)
  = bool_decide (t = ".") || Linux.ends_with_slash_dot t.
Proof. reflexivity. Qed.

Lemma app_slash_not_dot (e t : string) : e +:+ "/" +:+ t <> ".".
Proof.
  destruct e as [| c e]; simpl; [done |].
  intros [= _ Hrest]. by destruct e.
Qed.

Lemma concat_clean (es : list string) :
  Forall clean_elem es ->
  Linux.ends_with_slash_dot (String.concat "/" es) = false /\
  String.concat "/" es <> ".".
Proof.
  induction es as [| e es IH]; intros Hes; [done |].
  apply Forall_cons in Hes as [(Hslash & Hdot & _) Hes].
  destruct es as [| e' es'].
  - simpl. split; [by apply ends_with_slash_dot_no_slash | done].
  - destruct (IH Hes) as [IH1 IH2].
    change (String.concat "/" (e :: e' :: es'))
      with (e +:+ "/" +:+ String.concat "/" (e' :: es')).
    generalize dependent (String.concat "/" (e' :: es')). intros t _ IH1 IH2.
    split; [| apply app_slash_not_dot].
    rewrite ends_with_slash_dot_app by done.
    rewrite ends_with_slash_dot_slash, IH1. by case_bool_decide.
Qed.

Lemma concat_clean_nonempty (es : list string) :
  Forall clean_elem es -> es <> [] -> String.concat "/" es <> "".
Proof.
  destruct es as [| e es]; [done |].
  intros [(_ & _ & He) _]%Forall_cons _.
  destruct es as [| e' es']; [done |].
  change (String.concat "/" (e :: e' :: es'))
    with (e +:+ "/" +:+ String.concat "/" (e' :: es')).
  by destruct e.
Qed.

(** A cleaned path is never empty. *)
Lemma Clean_nonempty (path : string) : Linux.Clean path <> "".
Proof.
  unfold Linux.Clean. case_decide; [done |].
  pose proof (clean_elems_clean (Linux.is_rooted path) (Linux.split_slash path) []
                (split_slash_no_slash path) (Forall_nil_2 _)) as Hclean.
  destruct (Linux.is_rooted path); [done |].
  destruct (Linux.clean_elems false [] (Linux.split_slash path)) eqn:Hes; [done |].
  by apply concat_clean_nonempty.
Qed.

(** The backing path of a volume with a non-empty id is never empty. *)
Lemma backing_path_nonempty (d : Driver) (volume_id : string) :
  volume_id <> "" -> backing_path d volume_id <> "".
Proof.
  intros Hid. unfold backing_path. simpl.
  case_decide; [| apply Clean_nonempty].
  case_decide; [done | apply Clean_nonempty].
Qed.

(** A cleaned path never ends in [/.]. *)
Lemma Clean_ends_with_slash_dot (path : string) :
  Linux.ends_with_slash_dot (Linux.Clean path) = false.
Proof.
  unfold Linux.Clean. case_decide; [done |].
  pose proof (clean_elems_clean (Linux.is_rooted path) (Linux.split_slash path) []
                (split_slash_no_slash path) (Forall_nil_2 _)) as Hclean.
  destruct (concat_clean _ Hclean) as [H1 H2].
  destruct (Linux.is_rooted path).
  - rewrite ends_with_slash_dot_slash, H1. by case_bool_decide.
  - by destruct (Linux.clean_elems false [] (Linux.split_slash path)).
Qed.

Lemma Join_empty_or_Clean (elem : list string) :
  Linux.Join elem = "" \/ exists path, Linux.Join elem = Linux.Clean path.
Proof.
  induction elem as [| e rest IH]; simpl; [by left |].
  case_decide; [done |]. right. by eexists.
Qed.

(** The only joined path whose final element is [.] is [.] itself. *)
Lemma Join_endsWithDot (elem : list string) :
  Linux.endsWithDot (Linux.Join elem) = true -> Linux.Join elem = ".".
Proof.
  unfold Linux.endsWithDot.
  destruct (Join_empty_or_Clean elem) as [-> | [path ->]]; [done |].
  rewrite Clean_ends_with_slash_dot, orb_false_r. by intros ?%bool_decide_eq_true.
Qed.

(** ** The Linux host: the file tree *)

Lemma mkdir_all_empty (p : list string) : is_Some (Linux.mkdir_all p ∅).
Proof.
  induction p as [| c p IH]; simpl; [done |].
  rewrite lookup_empty. by destruct IH as [cs ->].
Qed.

(** After [mkdir_all] the path is a directory. *)
Lemma mkdir_all_walk (p : list string) (cs cs' : gmap string Linux.node) :
  Linux.mkdir_all p cs = Some cs' ->
  exists d, Linux.walk p cs' = inl (Linux.Dir d).
Proof.
  revert cs cs'. induction p as [| c p IH]; intros cs cs'; simpl.
  - intros [= <-]. by eexists.
  - destruct (cs !! c) as [[| sub] |].
    + done.
    + destruct (Linux.mkdir_all p sub) as [sub' |] eqn:Hsub; [| done].
      intros [= <-]. rewrite lookup_insert_eq. by eapply IH.
    + destruct (Linux.mkdir_all p ∅) as [sub' |] eqn:Hsub; [| done].
      intros [= <-]. rewrite lookup_insert_eq. by eapply IH.
Qed.

(** On a path that is a directory [mkdir_all] changes nothing. *)
Lemma mkdir_all_existing (p : list string) (cs d : gmap string Linux.node) :
  Linux.walk p cs = inl (Linux.Dir d) -> Linux.mkdir_all p cs = Some cs.
Proof.
  revert cs. induction p as [| c p IH]; intros cs; simpl; [done |].
  destruct (cs !! c) as [[| sub] |] eqn:Hc.
  - by destruct p.
  - intros Hw. rewrite (IH _ Hw). by rewrite insert_id.
  - done.
Qed.

(** [mkdir_all] succeeds on a path that does not exist yet. *)
Lemma mkdir_all_missing (p : list string) (cs : gmap string Linux.node) :
  Linux.walk p cs = inr ENOENT -> is_Some (Linux.mkdir_all p cs).
Proof.
  revert cs. induction p as [| c p IH]; intros cs; simpl; [done |].
  destruct (cs !! c) as [[| sub] |] eqn:Hc.
  - by destruct p.
  - intros Hw. by destruct (IH _ Hw) as [sub' ->].
  - intros _. by destruct (mkdir_all_empty p) as [sub' ->].
Qed.

(** [mkdir_all] fails only on a regular file in the way. *)
Lemma mkdir_all_blocked (p : list string) (cs : gmap string Linux.node) :
  Linux.mkdir_all p cs = None ->
  Linux.walk p cs = inl Linux.File \/ Linux.walk p cs = inr ENOTDIR.
Proof.
  revert cs. induction p as [| c p IH]; intros cs; simpl; [done |].
  destruct (cs !! c) as [[| sub] |] eqn:Hc.
  - intros _. destruct p; auto.
  - destruct (Linux.mkdir_all p sub) eqn:Hsub; [done |]. intros _. by apply IH.
  - by destruct (mkdir_all_empty p) as [sub' ->].
Qed.

(** On the Linux host the calls of the host interface are the functions
    of the model. *)
Lemma linux_Join : @filepath_Join Linux.Host Linux.hostOS = Linux.Join.
Proof. reflexivity. Qed.

Lemma linux_MkdirAll : @os_MkdirAll Linux.Host Linux.hostOS = Linux.MkdirAll.
Proof. reflexivity. Qed.

Lemma linux_RemoveAll : @os_RemoveAll Linux.Host Linux.hostOS = Linux.RemoveAll.
Proof. reflexivity. Qed.

Lemma linux_Mount : @syscall_Mount Linux.Host Linux.hostOS = Linux.Mount.
Proof. reflexivity. Qed.

Lemma linux_Unmount : @syscall_Unmount Linux.Host Linux.hostOS = Linux.Unmount.
Proof. reflexivity. Qed.

Ltac on_linux H :=
  cbv zeta in H;
  rewrite ?linux_Join, ?linux_MkdirAll, ?linux_RemoveAll, ?linux_Mount,
    ?linux_Unmount in H.

(** ** Volume deletion *)

(** What [DeleteVolume] does with a request that carries a volume id: one
    [os.RemoveAll] of the backing path, whose error decides between an
    [Internal] error and success. *)
Lemma DeleteVolume_run {H : Type} {hostOS : HostOS H} (s : controllerServer)
    (req : ptr csi.DeleteVolumeRequest.t) (w : World H) :
  csi.DeleteVolumeRequest.GetVolumeId req <> "" ->
  let volumeDir :=
    filepath_Join [stateDir (controllerServer_d s);
                   csi.DeleteVolumeRequest.GetVolumeId req] in
  let r := DeleteVolume s req w in
  host r.2 = (os_RemoveAll volumeDir (host w)).2 /\
  match (os_RemoveAll volumeDir (host w)).1 with
  | Some e => failed_with Internal r.1
  | None => r.1 = (Some csi.DeleteVolumeResponse.Build, None)
  end.
Proof.
  intros Hid volumeDir r. subst r. unfold DeleteVolume.
  case_decide; [done |]. fold volumeDir. rewrite bind_run.
  destruct (on_host_host (os_RemoveAll volumeDir) w) as (-> & Hhost & _).
  destruct ((os_RemoveAll volumeDir (host w)).1) as [e |] eqn:Herr.
  - simpl. split; [done |]. split; [done |]. by eexists.
  - by rewrite bind_run.
Qed.

(** [os.RemoveAll] of a joined path that does not exist reports no error
    and leaves the host as it is. *)
Lemma RemoveAll_not_exist (elem : list string) (h : Linux.Host) :
  Linux.Stat (Linux.Join elem) h = inr ENOENT ->
  Linux.RemoveAll (Linux.Join elem) h = (None, h).
Proof.
  intros Hstat. unfold Linux.RemoveAll. case_decide as Hempty; [done |].
  destruct (Linux.endsWithDot (Linux.Join elem)) eqn:Hdot.
  { apply Join_endsWithDot in Hdot. by rewrite Hdot in Hstat. }
  unfold Linux.Stat in Hstat. case_decide; [done |]. by rewrite Hstat.
Qed.

(** C4: [DeleteVolume] fails with [InvalidArgument] exactly when the
    volume id is empty; with a non-empty id whose backing path does not
    exist ([os.Stat] reports ENOENT) it succeeds and leaves the host
    untouched; and whenever the removal reports an error, the call fails
    with [Internal]. *)
Theorem DeleteVolume_outcomes (s : controllerServer)
    (req : ptr csi.DeleteVolumeRequest.t) (w : World Linux.Host) :
  let volume_id := csi.DeleteVolumeRequest.GetVolumeId req in
  let volumeDir := backing_path (controllerServer_d s) volume_id in
  let r := DeleteVolume s req w in
  (failed_with InvalidArgument r.1 <-> volume_id = "") /\
  (volume_id <> "" -> Linux.Stat volumeDir (host w) = inr ENOENT ->
   succeeded r.1 /\ host r.2 = host w) /\
  (volume_id <> "" ->
   forall e, (Linux.RemoveAll volumeDir (host w)).1 = Some e ->
   failed_with Internal r.1).
Proof.
  intros volume_id volumeDir r. split; [| split].
  - split.
    + intros Hfail. destruct (decide (volume_id = "")) as [| Hid]; [done |].
      pose proof (DeleteVolume_run s req w Hid) as [_ Hrun]. on_linux Hrun.
      fold r in Hrun. destruct Hfail as [Hnone [msg Hmsg]].
      destruct (Linux.RemoveAll _ (host w)).1.
      * destruct Hrun as [_ [msg' Hmsg']]. congruence.
      * rewrite Hrun in Hnone. done.
    + intros Hid. subst r. unfold DeleteVolume. fold volume_id.
      case_decide; [| done]. split; [done |]. by eexists.
  - intros Hid Hstat.
    pose proof (DeleteVolume_run s req w Hid) as [Hhost Hrun].
    on_linux Hhost. on_linux Hrun. fold volume_id r in Hhost, Hrun.
    change (Linux.Join [stateDir (controllerServer_d s); volume_id])
      with volumeDir in Hhost, Hrun.
    unfold volumeDir, backing_path in *.
    rewrite (RemoveAll_not_exist _ _ Hstat) in Hhost, Hrun. simpl in *.
    rewrite Hrun. by repeat split.
  - intros Hid e Herr.
    pose proof (DeleteVolume_run s req w Hid) as [_ Hrun]. on_linux Hrun.
    fold volume_id r in Hrun.
    change (Linux.Join [stateDir (controllerServer_d s); volume_id])
      with volumeDir in Hrun.
    by rewrite Herr in Hrun.
Qed.

(** ** Volume creation on the Linux host *)

Lemma MkdirAll_ok (path : string) (perm : Z) (h h' : Linux.Host) :
  Linux.MkdirAll path perm h = (None, h') ->
  path <> "" /\
  exists cs, Linux.mkdir_all (Linux.resolve path) (Linux.files h) = Some cs /\
             h' = {| Linux.files := cs; Linux.mounts := Linux.mounts h |}.
Proof.
  unfold Linux.MkdirAll. case_decide; [done |].
  destruct (Linux.mkdir_all _ _) as [cs |]; [| done].
  intros [= <-]. split; [done |]. by eexists.
Qed.

(** [os.MkdirAll] of a path that is a directory reports no error and
    changes nothing. *)
Lemma MkdirAll_existing (path : string) (perm : Z) (h : Linux.Host)
    (d : gmap string Linux.node) :
  path <> "" ->
  Linux.walk (Linux.resolve path) (Linux.files h) = inl (Linux.Dir d) ->
  Linux.MkdirAll path perm h = (None, h).
Proof.
  intros Hne Hwalk. unfold Linux.MkdirAll. case_decide; [done |].
  rewrite (mkdir_all_existing _ _ _ Hwalk). by destruct h.
Qed.

(** [os.MkdirAll] is idempotent. *)
Lemma MkdirAll_twice (path : string) (perm perm' : Z) (h h' : Linux.Host) :
  Linux.MkdirAll path perm h = (None, h') ->
  Linux.MkdirAll path perm' h' = (None, h').
Proof.
  intros (Hne & cs & Hmk & ->)%MkdirAll_ok.
  destruct (mkdir_all_walk _ _ _ Hmk) as [d Hd].
  by eapply MkdirAll_existing.
Qed.

(** C2: for a request with a name and at least one capability, and a second
    request with the same name (and any parameters), on a host where the
    first [CreateVolume] succeeds, the second succeeds as well, both replies
    carry the name as volume id, and the second call leaves the host as the
    first left it.  The first call does succeed whenever the backing path is
    a directory already, in which case nothing changes, or does not exist
    yet. *)
Theorem CreateVolume_idempotent (s : controllerServer)
    (req1 req2 : ptr csi.CreateVolumeRequest.t) (w : World Linux.Host) :
  csi.CreateVolumeRequest.GetName req1 <> "" ->
  csi.CreateVolumeRequest.GetVolumeCapabilities req1 <> [] ->
  csi.CreateVolumeRequest.GetName req2 = csi.CreateVolumeRequest.GetName req1 ->
  csi.CreateVolumeRequest.GetVolumeCapabilities req2 <> [] ->
  let name := csi.CreateVolumeRequest.GetName req1 in
  let volumeDir := backing_path (controllerServer_d s) name in
  let r1 := CreateVolume s req1 w in
  let r2 := CreateVolume s req2 r1.2 in
  (succeeded r1.1 ->
   succeeded r2.1 /\
   reply_volume_id r1.1 = Some name /\ reply_volume_id r2.1 = Some name /\
   host r2.2 = host r1.2) /\
  ((exists d, Linux.Stat volumeDir (host w) = inl (Linux.Dir d)) ->
   succeeded r1.1 /\ host r1.2 = host w) /\
  (Linux.Stat volumeDir (host w) = inr ENOENT -> succeeded r1.1).
Proof.
  intros Hname1 Hcaps1 Hname Hcaps2 name volumeDir r1 r2.
  assert (csi.CreateVolumeRequest.GetName req2 <> "") as Hname2 by congruence.
  pose proof (CreateVolume_run s req1 w Hname1 Hcaps1) as [Hhost1 Hrun1].
  pose proof (CreateVolume_run s req2 r1.2 Hname2 Hcaps2) as [Hhost2 Hrun2].
  on_linux Hhost1. on_linux Hrun1. on_linux Hhost2. on_linux Hrun2.
  rewrite Hname in Hhost2, Hrun2.
  fold name r1 in Hhost1, Hrun1, Hhost2, Hrun2. fold r2 in Hhost2, Hrun2.
  change (Linux.Join [stateDir (controllerServer_d s); name])
    with volumeDir in Hhost1, Hrun1, Hhost2, Hrun2.
  assert (volumeDir <> "") as Hdir by by apply backing_path_nonempty.
  assert (forall h',
            Linux.MkdirAll volumeDir 488 (host w) = (None, h') ->
            succeeded r1.1 /\ host r1.2 = h' /\
            reply_volume_id r1.1 = Some name) as Hfirst.
  { intros h' Hmk. rewrite Hmk in Hhost1, Hrun1. simpl in *.
    rewrite Hrun1. by repeat split. }
  split; [| split].
  - intros Hok1.
    destruct (Linux.MkdirAll volumeDir 488 (host w)) as [[e |] h'] eqn:Hmk.
    { simpl in Hrun1. destruct Hok1 as [[resp Hresp] _].
      destruct Hrun1 as [Hnone _]. congruence. }
    destruct (Hfirst h' eq_refl) as (_ & Hh' & Hid1).
    pose proof (MkdirAll_twice _ _ 488 _ _ Hmk) as Hmk2.
    rewrite Hh', Hmk2 in Hhost2, Hrun2. simpl in *.
    rewrite Hrun2, Hhost2, Hh', Hid1. by repeat split.
  - intros [d Hstat]. unfold Linux.Stat in Hstat. case_decide; [done |].
    destruct (Hfirst _ (MkdirAll_existing _ 488 _ _ Hdir Hstat)) as (? & ? & _).
    done.
  - intros Hstat. unfold Linux.Stat in Hstat. case_decide; [done |].
    destruct (mkdir_all_missing _ _ Hstat) as [cs Hcs].
    eapply (Hfirst {| Linux.files := cs; Linux.mounts := Linux.mounts (host w) |}).
    unfold Linux.MkdirAll. case_decide; [done |]. by rewrite Hcs.
Qed.

(** ** Publishing *)

(** What [NodePublishVolume] does with a request that passes the three
    argument checks: [os.MkdirAll] of the backing path, [os.MkdirAll] of the
    target path, one [mount(2)]; the first error ends the call with an
    [Internal] error. *)
Lemma NodePublishVolume_run {H : Type} {hostOS : HostOS H} (s : nodeServer)
    (req : ptr csi.NodePublishVolumeRequest.t) (w : World H) :
  csi.NodePublishVolumeRequest.GetVolumeId req <> "" ->
  csi.NodePublishVolumeRequest.GetTargetPath req <> "" ->
  csi.NodePublishVolumeRequest.GetVolumeCapability req <> None ->
  let volumeDir :=
    filepath_Join [stateDir (nodeServer_d s);
                   csi.NodePublishVolumeRequest.GetVolumeId req] in
  let targetPath := csi.NodePublishVolumeRequest.GetTargetPath req in
  let r := NodePublishVolume s req w in
  let m1 := os_MkdirAll volumeDir 488 (host w) in
  let m2 := os_MkdirAll targetPath 488 m1.2 in
  let m3 := syscall_Mount volumeDir targetPath "" (publish_flags req) "" m2.2 in
  match m1.1 with
  | Some _ => failed_with Internal r.1 /\ host r.2 = m1.2
  | None =>
      match m2.1 with
      | Some _ => failed_with Internal r.1 /\ host r.2 = m2.2
      | None =>
          host r.2 = m3.2 /\
          match m3.1 with
          | Some _ => failed_with Internal r.1
          | None => r.1 = (Some csi.NodePublishVolumeResponse.Build, None)
          end
      end
  end.
Proof.
  intros Hid Htarget Hcap volumeDir targetPath r m1 m2 m3.
  subst r. unfold NodePublishVolume.
  case_decide; [done |]. case_decide; [done |]. case_decide; [done |].
  fold volumeDir targetPath. rewrite bind_run.
  destruct (on_host_host (os_MkdirAll volumeDir 488) w) as (-> & Hh1 & _).
  fold m1. fold m1 in Hh1. destruct (m1.1) as [e1 |].
  { simpl. split; [| done]. split; [done |]. by eexists. }
  rewrite bind_run.
  destruct (on_host_host (os_MkdirAll targetPath 488)
              (on_host (os_MkdirAll volumeDir 488) w).2) as (-> & Hh2 & _).
  rewrite Hh1 in Hh2 |- *. fold m2. fold m2 in Hh2. destruct (m2.1) as [e2 |].
  { simpl. split; [| done]. split; [done |]. by eexists. }
  rewrite bind_run.
  match goal with
  | |- context [on_host (syscall_Mount volumeDir targetPath "" ?fl "") ?w2] =>
      change fl with (publish_flags req);
      destruct (on_host_host
                  (syscall_Mount volumeDir targetPath "" (publish_flags req) "")
                  w2) as (-> & Hh3 & _)
  end.
  rewrite Hh2 in Hh3 |- *. fold m3. fold m3 in Hh3. destruct (m3.1) as [e3 |].
  { simpl. split; [done |]. split; [done |]. by eexists. }
  rewrite bind_run. by simpl.
Qed.




Lemma Stat_walk (path : string) (h : Linux.Host) :
  path <> "" ->
  Linux.Stat path h = Linux.walk (Linux.resolve path) (Linux.files h).
Proof. intros Hne. unfold Linux.Stat. by case_decide. Qed.




(** ** Unpublishing *)

(** What [NodeUnpublishVolume] does with a request that passes the two
    argument checks: one [umount2(2)] of the target path; no error and
    EINVAL are success, any other error is an [Internal] error. *)
Lemma NodeUnpublishVolume_run {H : Type} {hostOS : HostOS H} (s : nodeServer)
    (req : ptr csi.NodeUnpublishVolumeRequest.t) (w : World H) :
  csi.NodeUnpublishVolumeRequest.GetVolumeId req <> "" ->
  csi.NodeUnpublishVolumeRequest.GetTargetPath req <> "" ->
  let targetPath := csi.NodeUnpublishVolumeRequest.GetTargetPath req in
  let r := NodeUnpublishVolume s req w in
  host r.2 = (syscall_Unmount targetPath 0 (host w)).2 /\
  match (syscall_Unmount targetPath 0 (host w)).1 with
  | None => r.1 = (Some csi.NodeUnpublishVolumeResponse.Build, None)
  | Some e =>
      if decide (e = ErrnoError EINVAL)
      then r.1 = (Some csi.NodeUnpublishVolumeResponse.Build, None)
      else failed_with Internal r.1
  end.
Proof.
  intros Hid Htarget targetPath r. subst r. unfold NodeUnpublishVolume.
  case_decide; [done |]. case_decide; [done |].
  fold targetPath. rewrite bind_run.
  destruct (on_host_host (syscall_Unmount targetPath 0) w) as (-> & Hhost & _).
  destruct ((syscall_Unmount targetPath 0 (host w)).1) as [e |].
  - case_decide.
    + rewrite bind_run. simpl. by rewrite klog_V_Infof_host.
    + simpl. split; [done |]. split; [done |]. by eexists.
  - by rewrite bind_run.
Qed.

Lemma pop_mount_None (t : list string) (ms : list Linux.MountEntry) :
  Linux.pop_mount t ms = None <->
  filter (fun m => Linux.mnt_target m = t) ms = [].
Proof.
  induction ms as [| m ms IH]; simpl; [done |].
  case_decide.
  - rewrite filter_cons_True by done. done.
  - rewrite filter_cons_False by done. rewrite <- IH.
    by destruct (Linux.pop_mount t ms).
Qed.

(** X14: the three outcomes of [NodeUnpublishVolume] on the Linux host.  It
    fails with [InvalidArgument] exactly when the volume id or the target
    path is empty.  With both present: a target path that exists and has
    nothing mounted on it is success, and the host is left as it is; an
    error of the unmount other than EINVAL is an [Internal] error; and that
    is the outcome for a target path that has nothing mounted on it and
    does not exist. *)
Lemma NodeUnpublishVolume_outcomes (s : nodeServer)
    (req : ptr csi.NodeUnpublishVolumeRequest.t) (w : World Linux.Host) :
  let volume_id := csi.NodeUnpublishVolumeRequest.GetVolumeId req in
  let target := csi.NodeUnpublishVolumeRequest.GetTargetPath req in
  let r := NodeUnpublishVolume s req w in
  (failed_with InvalidArgument r.1 <-> volume_id = "" \/ target = "") /\
  (volume_id <> "" -> target <> "" ->
   Linux.bindings_at target (host w) = [] ->
   (forall n, Linux.Stat target (host w) = inl n ->
      succeeded r.1 /\ host r.2 = host w) /\
   (forall e, Linux.Stat target (host w) = inr e -> failed_with Internal r.1)) /\
  (volume_id <> "" -> target <> "" ->
   forall e, (Linux.Unmount target 0 (host w)).1 = Some e ->
   e <> ErrnoError EINVAL -> failed_with Internal r.1).
Proof.
  intros volume_id target r. split; [| split].
  - split.
    + intros [Hnone [msg Hmsg]].
      destruct (decide (volume_id = "")) as [| Hid]; [by left |].
      destruct (decide (target = "")) as [| Htarget]; [by right |].
      pose proof (NodeUnpublishVolume_run s req w Hid Htarget) as [_ Hrun].
      on_linux Hrun. fold target r in Hrun.
      destruct (Linux.Unmount target 0 (host w)).1 as [e |].
      * case_decide; [by rewrite Hrun in Hnone |].
        destruct Hrun as [_ [msg' Hmsg']]. congruence.
      * by rewrite Hrun in Hnone.
    + intros Hempty. subst r. unfold NodeUnpublishVolume. fold volume_id target.
      case_decide.
      * split; [done |]. by eexists.
      * case_decide; [| by destruct Hempty]. split; [done |]. by eexists.
  - intros Hid Htarget Hnot.
    pose proof (NodeUnpublishVolume_run s req w Hid Htarget) as [Hhost Hrun].
    on_linux Hhost. on_linux Hrun. fold target r in Hhost, Hrun.
    apply pop_mount_None in Hnot.
    unfold Linux.Unmount in Hhost, Hrun.
    rewrite decide_False in Hhost, Hrun by done. rewrite Hnot in Hhost, Hrun.
    split.
    + intros n Hstat. rewrite Stat_walk in Hstat by done.
      rewrite Hstat in Hhost, Hrun. simpl in Hhost, Hrun.
      rewrite Hrun. by repeat split.
    + intros e Hstat. rewrite Stat_walk in Hstat by done.
      rewrite Hstat in Hrun. simpl in Hrun. case_decide as He; [| done].
      injection He as ->. clear -Hstat.
      exfalso. revert Hstat. generalize (Linux.files (host w)).
      induction (Linux.resolve target) as [| c p IH]; intros cs; simpl; [done |].
      destruct (cs !! c) as [[| sub] |]; [by destruct p | apply IH | done].
  - intros Hid Htarget e Herr Hne.
    pose proof (NodeUnpublishVolume_run s req w Hid Htarget) as [_ Hrun].
    on_linux Hrun. fold target r in Hrun. rewrite Herr in Hrun.
    by rewrite decide_False in Hrun.
Qed.

(** C5 (evaluated where it fails): unpublishing a target path that was
    never published, and so has nothing mounted on it and does not exist,
    is not success: [umount2(2)] reports ENOENT, which the handler does not
    tell from the other errors, and the call fails with [Internal]. *)
Theorem NodeUnpublishVolume_never_published :
  Linux.bindings_at "/pods/x/vol" fresh_host = [] /\
  Linux.Unmount "/pods/x/vol" 0 fresh_host = (Some (ErrnoError ENOENT), fresh_host) /\
  failed_with Internal
    (NodeUnpublishVolume demo_node
       (Some (unpublish_of "pvc-1" "/pods/x/vol")) (world_of fresh_host)).1.
Proof.
  split; [by vm_compute |]. split; [by vm_compute |].
  vm_compute. split; [done |]. by eexists.
Qed.

(** What the second binding means for the caller: after two publishes one
    unpublish succeeds and the target path is still bound to the backing
    directory, whereas after one publish it leaves the target path
    unbound. *)
Lemma publish_twice_unpublish_once :
  let publish := Some (publish_of "pvc-1" "/pods/x/vol") in
  let unpublish := Some (unpublish_of "pvc-1" "/pods/x/vol") in
  let w1 := (NodePublishVolume demo_node publish (world_of fresh_host)).2 in
  let w2 := (NodePublishVolume demo_node publish w1).2 in
  succeeded (NodeUnpublishVolume demo_node unpublish w2).1 /\
  Linux.top_binding "/pods/x/vol"
    (host (NodeUnpublishVolume demo_node unpublish w2).2)
  = Some (binding_of demo_driver publish) /\
  succeeded (NodeUnpublishVolume demo_node unpublish w1).1 /\
  Linux.top_binding "/pods/x/vol"
    (host (NodeUnpublishVolume demo_node unpublish w1).2) = None.
Proof.
  vm_compute. repeat split; by eexists.
Qed.

(** ** The theorems at sample inputs *)

(** The scenario of the specification: [pvc-1] is created twice on a node
    whose state directory is empty. *)
Lemma CreateVolume_idempotent_witness :
  let r1 := CreateVolume demo_controller (Some create_pvc1) (world_of fresh_host) in
  let r2 := CreateVolume demo_controller (Some create_pvc1) r1.2 in
  succeeded r1.1 /\ succeeded r2.1 /\
  reply_volume_id r1.1 = Some "pvc-1" /\ reply_volume_id r2.1 = Some "pvc-1" /\
  host r2.2 = host r1.2.
Proof.
  intros r1 r2.
  assert (succeeded r1.1) as Hok.
  { vm_compute. split; [by eexists | reflexivity]. }
  split; [exact Hok |].
  apply (CreateVolume_idempotent demo_controller (Some create_pvc1)
           (Some create_pvc1) (world_of fresh_host));
    [done | done | reflexivity | done | exact Hok].
Defined.

Lemma ValidateVolumeCapabilities_allow_list_witness :
  soft_rejection
    (ValidateVolumeCapabilities demo_controller
       (Some (validate_of "pvc-1" [Some single_writer; Some multi_writer]))
       (world_of fresh_host)).1 /\
  confirms [Some single_writer]
    (ValidateVolumeCapabilities demo_controller
       (Some (validate_of "pvc-1" [Some single_writer]))
       (world_of fresh_host)).1.
Proof.
  split.
  - apply (ValidateVolumeCapabilities_allow_list demo_controller
             (Some (validate_of "pvc-1" [Some single_writer; Some multi_writer]))
             (world_of fresh_host)); [done | done |].
    apply Exists_cons_tl, Exists_cons_hd.
    apply unsupported_mode_not_allowed. reflexivity.
  - apply (ValidateVolumeCapabilities_allow_list demo_controller
             (Some (validate_of "pvc-1" [Some single_writer]))
             (world_of fresh_host)); [done | done |].
    constructor; [| constructor].
    apply unsupported_mode_allowed. reflexivity.
Defined.

(** Deleting with an empty id; deleting [pvc-9], which was never created;
    and deleting an id whose backing path runs through the regular file a
    workload wrote into [pvc-1], where the removal reports ENOTDIR. *)
Lemma DeleteVolume_outcomes_witness :
  failed_with InvalidArgument
    (DeleteVolume demo_controller (Some (delete_of "")) (world_of fresh_host)).1 /\
  (Linux.Stat (backing_path demo_driver "pvc-9") fresh_host = inr ENOENT /\
   succeeded
     (DeleteVolume demo_controller (Some (delete_of "pvc-9")) (world_of fresh_host)).1 /\
   host (DeleteVolume demo_controller (Some (delete_of "pvc-9")) (world_of fresh_host)).2
   = fresh_host) /\
  ((Linux.RemoveAll (backing_path demo_driver "pvc-1/hello.txt/x") used_host).1
   = Some (PathError "unlinkat" "/var/lib/demo-csi/volumes/pvc-1/hello.txt/x" ENOTDIR) /\
   failed_with Internal
     (DeleteVolume demo_controller (Some (delete_of "pvc-1/hello.txt/x"))
        (world_of used_host)).1).
Proof.
  split; [| split].
  - apply (DeleteVolume_outcomes demo_controller (Some (delete_of ""))
             (world_of fresh_host)). reflexivity.
  - assert (Linux.Stat (backing_path demo_driver "pvc-9") fresh_host = inr ENOENT)
      as Hstat by (vm_compute; reflexivity).
    split; [exact Hstat |].
    apply (DeleteVolume_outcomes demo_controller (Some (delete_of "pvc-9"))
             (world_of fresh_host)); [done | exact Hstat].
  - assert ((Linux.RemoveAll (backing_path demo_driver "pvc-1/hello.txt/x") used_host).1
            = Some (PathError "unlinkat" "/var/lib/demo-csi/volumes/pvc-1/hello.txt/x" ENOTDIR))
      as Herr by (vm_compute; reflexivity).
    split; [exact Herr |].
    eapply (DeleteVolume_outcomes demo_controller
              (Some (delete_of "pvc-1/hello.txt/x")) (world_of used_host));
      [done | exact Herr].
Defined.

(** The scenario of the specification: [create_volume(name="pvc-1",
    capabilities=[single-writer], capacity=1Gi)]. *)
Lemma CreateVolume_response_witness :
  succeeded (CreateVolume demo_controller (Some create_pvc1) (world_of fresh_host)).1 /\
  exists resp v,
    (CreateVolume demo_controller (Some create_pvc1) (world_of fresh_host)).1
    = (Some resp, None) /\
    csi.CreateVolumeResponse.Volume resp = Some v /\
    csi.Volume.VolumeId v = "pvc-1" /\
    csi.Volume.CapacityBytes v = 1073741824 /\
    csi.Volume.VolumeContext v = ∅.
Proof.
  assert (succeeded (CreateVolume demo_controller (Some create_pvc1)
                       (world_of fresh_host)).1) as Hok.
  { vm_compute. split; [by eexists | reflexivity]. }
  split; [exact Hok |].
  apply (CreateVolume_response demo_controller (Some create_pvc1)
           (world_of fresh_host)); [done | done | exact Hok].
Defined.

(** Validation of a volume that was never created. *)
Lemma ValidateVolumeCapabilities_frame_witness :
  Linux.Stat (backing_path demo_driver "pvc-1") fresh_host = inr ENOENT /\
  (ValidateVolumeCapabilities demo_controller
     (Some (validate_of "pvc-1" [Some single_writer])) (world_of fresh_host)).2
  = world_of fresh_host /\
  confirms [Some single_writer]
    (ValidateVolumeCapabilities demo_controller
       (Some (validate_of "pvc-1" [Some single_writer])) (world_of fresh_host)).1.
Proof.
  split; [vm_compute; reflexivity |].
  assert (Forall allowed [Some single_writer]) as Hall.
  { constructor; [| constructor]. apply unsupported_mode_allowed. reflexivity. }
  destruct (ValidateVolumeCapabilities_frame demo_controller
              (Some (validate_of "pvc-1" [Some single_writer]))
              (world_of fresh_host)) as (Hframe & Hconfirms & _);
    [done | done | exact Hall |].
  split; [exact Hframe | exact Hconfirms].
Defined.

(** A capability without an access mode, and a nil capability. *)
Lemma ValidateVolumeCapabilities_unspecified_mode_witness :
  soft_rejection
    (ValidateVolumeCapabilities demo_controller
       (Some (validate_of "pvc-1" [Some single_writer; Some no_mode]))
       (world_of fresh_host)).1 /\
  soft_rejection
    (ValidateVolumeCapabilities demo_controller
       (Some (validate_of "pvc-1" [None])) (world_of fresh_host)).1.
Proof.
  split.
  - apply (ValidateVolumeCapabilities_unspecified_mode demo_controller
             (Some (validate_of "pvc-1" [Some single_writer; Some no_mode]))
             (world_of fresh_host) (Some no_mode)).
    + done.
    + simpl. rewrite !elem_of_cons. by right; left.
    + left. reflexivity.
  - apply (ValidateVolumeCapabilities_unspecified_mode demo_controller
             (Some (validate_of "pvc-1" [None])) (world_of fresh_host) None).
    + done.
    + simpl. rewrite !elem_of_cons. by left.
    + left. reflexivity.
Defined.

(** * Further properties of the handlers *)

(** ** Argument checks *)

Lemma succeeded_not_failed {Resp : Type} (c : Code) (r : Reply Resp) :
  succeeded r -> ~ failed_with c r.
Proof. intros [[resp Hresp] _] [Hnone _]. congruence. Qed.

Lemma failed_with_code {Resp : Type} (c c' : Code) (r : Reply Resp) :
  failed_with c r -> failed_with c' r -> c = c'.
Proof. intros [_ [msg Hmsg]] [_ [msg' Hmsg']]. congruence. Qed.

(** X1: [CreateVolume] fails with [InvalidArgument] exactly when the name
    is empty or no capability is given, and then it returns the world as it
    received it: nothing was created and nothing was logged. *)
Theorem CreateVolume_argument_check {H : Type} {hostOS : HostOS H}
    (s : controllerServer) (req : ptr csi.CreateVolumeRequest.t) (w : World H) :
  let missing :=
    csi.CreateVolumeRequest.GetName req = "" \/
    csi.CreateVolumeRequest.GetVolumeCapabilities req = [] in
  (failed_with InvalidArgument (CreateVolume s req w).1 <-> missing) /\
  (missing -> (CreateVolume s req w).2 = w).
Proof.
  intros missing. subst missing.
  destruct (decide (csi.CreateVolumeRequest.GetName req = "")) as [Hname | Hname].
  { unfold CreateVolume. rewrite decide_True by done.
    split; [| done]. split; [by left |]. intros _. split; [done |]. by eexists. }
  destruct (decide (csi.CreateVolumeRequest.GetVolumeCapabilities req = []))
    as [Hcaps | Hcaps].
  { unfold CreateVolume. rewrite decide_False by done.
    rewrite decide_True by (by rewrite Hcaps).
    split; [| done]. split; [by right |]. intros _. split; [done |]. by eexists. }
  split; [| by intros [? | ?]]. split; [| by intros [? | ?]].
  intros Hfail. exfalso.
  pose proof (CreateVolume_run s req w Hname Hcaps) as [_ Hrun]. cbv zeta in Hrun.
  destruct ((os_MkdirAll _ 488 (host w)).1).
  - by pose proof (failed_with_code _ _ _ Hfail Hrun).
  - rewrite Hrun in Hfail. by destruct Hfail.
Qed.

Lemma CreateVolume_argument_check_witness :
  failed_with InvalidArgument
    (CreateVolume demo_controller None (world_of fresh_host)).1 /\
  (CreateVolume demo_controller None (world_of fresh_host)).2 = world_of fresh_host.
Proof.
  split.
  - apply (CreateVolume_argument_check demo_controller None (world_of fresh_host)).
    by left.
  - apply (CreateVolume_argument_check demo_controller None (world_of fresh_host)).
    by left.
Defined.

(** X2: [ValidateVolumeCapabilities] never changes the world, whatever the
    request; the only error it returns is [InvalidArgument], and it returns
    it exactly when the volume id is empty or no capability is given. *)
Theorem ValidateVolumeCapabilities_argument_check {H : Type} {hostOS : HostOS H}
    (s : controllerServer) (req : ptr csi.ValidateVolumeCapabilitiesRequest.t)
    (w : World H) :
  let r := ValidateVolumeCapabilities s req w in
  r.2 = w /\
  (failed_with InvalidArgument r.1 <->
   csi.ValidateVolumeCapabilitiesRequest.GetVolumeId req = "" \/
   csi.ValidateVolumeCapabilitiesRequest.GetVolumeCapabilities req = []) /\
  (r.1.2 <> None <-> failed_with InvalidArgument r.1).
Proof.
  intros r. subst r. unfold ValidateVolumeCapabilities.
  case_decide as Hid.
  { simpl. split; [done |]. split; split; try done; try by left.
    all: intros _; split; [done |]; by eexists. }
  case_decide as Hlen.
  { apply length_zero_nil in Hlen.
    simpl. split; [done |]. split; split; try done; try by right.
    all: intros _; split; [done |]; by eexists. }
  assert (csi.ValidateVolumeCapabilitiesRequest.GetVolumeCapabilities req <> [])
    as Hcaps by (by rewrite <- length_zero_nil).
  destruct (validate_loop _) as [reply |] eqn:Hloop; simpl.
  - apply validate_loop_Some in Hloop as [Hnil (resp & Hresp & _)].
    split; [done |]. split; split; try done.
    + intros [Hnone _]. congruence.
    + by intros [? | ?].
    + intros [Hnone _]. congruence.
  - split; [done |]. split; split; try done.
    + by intros [? _].
    + by intros [? | ?].
    + by intros [? _].
Qed.

(** X3: [NodePublishVolume] fails with [InvalidArgument] exactly when the
    volume id or the target path is empty or the capability is nil, and
    then it returns the world as it received it: no directory was made and
    nothing was mounted. *)
Theorem NodePublishVolume_argument_check {H : Type} {hostOS : HostOS H}
    (s : nodeServer) (req : ptr csi.NodePublishVolumeRequest.t) (w : World H) :
  let missing :=
    csi.NodePublishVolumeRequest.GetVolumeId req = "" \/
    csi.NodePublishVolumeRequest.GetTargetPath req = "" \/
    csi.NodePublishVolumeRequest.GetVolumeCapability req = None in
  (failed_with InvalidArgument (NodePublishVolume s req w).1 <-> missing) /\
  (missing -> (NodePublishVolume s req w).2 = w).
Proof.
  intros missing. subst missing.
  destruct (decide (csi.NodePublishVolumeRequest.GetVolumeId req = "")) as [Hid | Hid].
  { unfold NodePublishVolume. rewrite decide_True by done.
    split; [| done]. split; [by left |]. intros _. split; [done |]. by eexists. }
  destruct (decide (csi.NodePublishVolumeRequest.GetTargetPath req = ""))
    as [Htarget | Htarget].
  { unfold NodePublishVolume. rewrite decide_False by done.
    rewrite decide_True by done.
    split; [| done]. split; [by right; left |]. intros _. split; [done |]. by eexists. }
  destruct (decide (csi.NodePublishVolumeRequest.GetVolumeCapability req = None))
    as [Hcap | Hcap].
  { unfold NodePublishVolume. rewrite !decide_False by done.
    rewrite decide_True by done.
    split; [| done]. split; [by right; right |]. intros _. split; [done |]. by eexists. }
  split; [| by intros [? | [? | ?]]]. split; [| by intros [? | [? | ?]]].
  intros Hfail. exfalso.
  pose proof (NodePublishVolume_run s req w Hid Htarget Hcap) as Hrun.
  cbv zeta in Hrun.
  assert (forall r : Reply csi.NodePublishVolumeResponse.t,
            failed_with InvalidArgument r -> failed_with Internal r -> False)
    as Hcontra
    by (intros r Ha Hb; by pose proof (failed_with_code _ _ _ Ha Hb)).
  destruct ((os_MkdirAll _ 488 (host w)).1); [destruct Hrun; by eauto |].
  destruct ((os_MkdirAll _ 488 _).1); [destruct Hrun; by eauto |].
  destruct Hrun as [_ Hrun].
  destruct ((syscall_Mount _ _ _ _ _ _).1); [by eauto |].
  rewrite Hrun in Hfail. by destruct Hfail.
Qed.

Lemma NodePublishVolume_argument_check_witness :
  failed_with InvalidArgument
    (NodePublishVolume demo_node (Some (publish_of "pvc-1" ""))
       (world_of fresh_host)).1 /\
  (NodePublishVolume demo_node (Some (publish_of "pvc-1" ""))
     (world_of fresh_host)).2 = world_of fresh_host.
Proof.
  split.
  - apply (NodePublishVolume_argument_check demo_node
             (Some (publish_of "pvc-1" "")) (world_of fresh_host)).
    right. by left.
  - apply (NodePublishVolume_argument_check demo_node
             (Some (publish_of "pvc-1" "")) (world_of fresh_host)).
    right. by left.
Defined.

(** ** What the handlers do not look at *)

(** X4: [CreateVolume] looks at the name, at whether there is any
    capability, at the required bytes and at the parameters, and at nothing
    else: two requests that agree on these get the same reply and leave the
    same world.  In particular the access modes and the limit of the
    capacity range play no part. *)
Theorem CreateVolume_depends_only {H : Type} {hostOS : HostOS H}
    (s : controllerServer) (req1 req2 : ptr csi.CreateVolumeRequest.t)
    (w : World H) :
  csi.CreateVolumeRequest.GetName req1 = csi.CreateVolumeRequest.GetName req2 ->
  (csi.CreateVolumeRequest.GetVolumeCapabilities req1 = [] <->
   csi.CreateVolumeRequest.GetVolumeCapabilities req2 = []) ->
  requested_capacity req1 = requested_capacity req2 ->
  csi.CreateVolumeRequest.GetParameters req1
  = csi.CreateVolumeRequest.GetParameters req2 ->
  CreateVolume s req1 w = CreateVolume s req2 w.
Proof.
  intros Hname Hcaps Hcap Hparams. unfold CreateVolume.
  rewrite Hname, Hparams. case_decide; [done |].
  assert ((match csi.CreateVolumeRequest.GetCapacityRange req1 with
           | Some cr => csi.CapacityRange.GetRequiredBytes (Some cr)
           | None => 0
           end)
          = (match csi.CreateVolumeRequest.GetCapacityRange req2 with
             | Some cr => csi.CapacityRange.GetRequiredBytes (Some cr)
             | None => 0
             end)) as -> by exact Hcap.
  rewrite <- !length_zero_nil in Hcaps.
  destruct (decide (length (csi.CreateVolumeRequest.GetVolumeCapabilities req1) = 0%nat))
    as [Hl | Hl].
  - by rewrite decide_True by by apply Hcaps.
  - by rewrite decide_False by (intros ?; by apply Hl, Hcaps).
Qed.

(** A request for [pvc-1] with a multi-writer capability and a limit. *)
Lemma CreateVolume_depends_only_witness :
  CreateVolume demo_controller
    (Some {| csi.CreateVolumeRequest.Name := "pvc-1";
             csi.CreateVolumeRequest.CapacityRange :=
               Some {| csi.CapacityRange.RequiredBytes := 1073741824;
                       csi.CapacityRange.LimitBytes := 5 |};
             csi.CreateVolumeRequest.VolumeCapabilities :=
               [Some multi_writer; None];
             csi.CreateVolumeRequest.Parameters := ∅ |})
    (world_of fresh_host)
  = CreateVolume demo_controller (Some create_pvc1) (world_of fresh_host).
Proof.
  apply (CreateVolume_depends_only demo_controller); [reflexivity | | reflexivity | reflexivity].
  split; discriminate.
Defined.

(** X5: [NodePublishVolume] looks at the volume id, the target path, the
    read-only flag and at whether there is a capability, and at nothing
    else: two requests that agree on these get the same reply and leave the
    same world. *)
Theorem NodePublishVolume_depends_only {H : Type} {hostOS : HostOS H}
    (s : nodeServer) (req1 req2 : ptr csi.NodePublishVolumeRequest.t)
    (w : World H) :
  csi.NodePublishVolumeRequest.GetVolumeId req1
  = csi.NodePublishVolumeRequest.GetVolumeId req2 ->
  csi.NodePublishVolumeRequest.GetTargetPath req1
  = csi.NodePublishVolumeRequest.GetTargetPath req2 ->
  csi.NodePublishVolumeRequest.GetReadonly req1
  = csi.NodePublishVolumeRequest.GetReadonly req2 ->
  (csi.NodePublishVolumeRequest.GetVolumeCapability req1 = None <->
   csi.NodePublishVolumeRequest.GetVolumeCapability req2 = None) ->
  NodePublishVolume s req1 w = NodePublishVolume s req2 w.
Proof.
  intros Hid Htarget Hro Hcap. unfold NodePublishVolume.
  rewrite Hid, Htarget, Hro. case_decide; [done |]. case_decide; [done |].
  destruct (decide (csi.NodePublishVolumeRequest.GetVolumeCapability req1 = None))
    as [Hc | Hc].
  - by rewrite decide_True by by apply Hcap.
  - by rewrite decide_False by (intros ?; by apply Hc, Hcap).
Qed.

Lemma NodePublishVolume_depends_only_witness :
  NodePublishVolume demo_node
    (Some {| csi.NodePublishVolumeRequest.VolumeId := "pvc-1";
             csi.NodePublishVolumeRequest.PublishContext := ∅;
             csi.NodePublishVolumeRequest.StagingTargetPath := "/staging";
             csi.NodePublishVolumeRequest.TargetPath := "/pods/x/vol";
             csi.NodePublishVolumeRequest.VolumeCapability := Some multi_writer;
             csi.NodePublishVolumeRequest.Readonly := false;
             csi.NodePublishVolumeRequest.VolumeContext := ∅ |})
    (world_of fresh_host)
  = NodePublishVolume demo_node (Some (publish_of "pvc-1" "/pods/x/vol"))
      (world_of fresh_host).
Proof.
  apply (NodePublishVolume_depends_only demo_node);
    [reflexivity | reflexivity | reflexivity |].
  split; discriminate.
Defined.

(** X6: [NodeUnpublishVolume] uses the volume id only to check that it is
    not empty: for one target path, any two non-empty volume ids get the
    same reply and leave the same host. *)
Theorem NodeUnpublishVolume_ignores_volume_id {H : Type} {hostOS : HostOS H}
    (s : nodeServer) (req1 req2 : ptr csi.NodeUnpublishVolumeRequest.t)
    (w : World H) :
  csi.NodeUnpublishVolumeRequest.GetVolumeId req1 <> "" ->
  csi.NodeUnpublishVolumeRequest.GetVolumeId req2 <> "" ->
  csi.NodeUnpublishVolumeRequest.GetTargetPath req1
  = csi.NodeUnpublishVolumeRequest.GetTargetPath req2 ->
  (NodeUnpublishVolume s req1 w).1 = (NodeUnpublishVolume s req2 w).1 /\
  host (NodeUnpublishVolume s req1 w).2 = host (NodeUnpublishVolume s req2 w).2.
Proof.
  intros Hid1 Hid2 Htarget. unfold NodeUnpublishVolume.
  rewrite (decide_False (P := csi.NodeUnpublishVolumeRequest.GetVolumeId req1 = ""))
    by done.
  rewrite (decide_False (P := csi.NodeUnpublishVolumeRequest.GetVolumeId req2 = ""))
    by done.
  rewrite Htarget.
  case_decide; [done |]. rewrite !bind_run.
  destruct (on_host (syscall_Unmount _ 0) w) as [[e |] w']; simpl.
  - case_decide; [| done]. unfold bind, klog_V_Infof.
    by case_bool_decide.
  - done.
Qed.

Lemma NodeUnpublishVolume_ignores_volume_id_witness :
  (NodeUnpublishVolume demo_node (Some (unpublish_of "pvc-1" "/pods/x/vol"))
     (NodePublishVolume demo_node (Some (publish_of "pvc-1" "/pods/x/vol"))
        (world_of fresh_host)).2).1
  = (NodeUnpublishVolume demo_node (Some (unpublish_of "another" "/pods/x/vol"))
       (NodePublishVolume demo_node (Some (publish_of "pvc-1" "/pods/x/vol"))
          (world_of fresh_host)).2).1.
Proof.
  apply (NodeUnpublishVolume_ignores_volume_id demo_node); [done | done | reflexivity].
Defined.

(** ** What the interceptor logs *)


(** ** The Linux host: what the calls keep *)


Lemma same_kind_refl (n : Linux.node) : Linux.same_kind n n = true.
Proof. by destruct n. Qed.

(** [mkdir_all] removes and replaces nothing: what was at a path before is
    there afterwards, a file as a file and a directory as a directory. *)
Lemma mkdir_all_preserves (p q : list string) (cs cs' : gmap string Linux.node)
    (n : Linux.node) :
  Linux.mkdir_all p cs = Some cs' ->
  Linux.walk q cs = inl n ->
  exists n', Linux.walk q cs' = inl n' /\ Linux.same_kind n n' = true.
Proof.
  revert q cs cs' n. induction p as [| c p IH]; intros q cs cs' n; simpl.
  - intros [= <-] Hq. exists n. split; [done | apply same_kind_refl].
  - destruct q as [| c' q].
    { intros _ [= <-]. by eexists. }
    intros Hmk. simpl.
    destruct (decide (c' = c)) as [-> | Hne].
    + destruct (cs !! c) as [[| sub] |] eqn:Hc; try done.
      destruct (Linux.mkdir_all p sub) as [sub' |] eqn:Hsub; [| done].
      injection Hmk as <-. rewrite lookup_insert_eq. by eapply IH.
    + assert (cs' !! c' = cs !! c') as ->; [| intros Hq; exists n; split;
                                               [done | apply same_kind_refl]].
      destruct (cs !! c) as [[| sub] |]; try done.
      * destruct (Linux.mkdir_all p sub); [| done]. injection Hmk as <-.
        by rewrite lookup_insert_ne.
      * destruct (Linux.mkdir_all p ∅); [| done]. injection Hmk as <-.
        by rewrite lookup_insert_ne.
Qed.


(** After [remove_at] nothing is left at the path. *)
Lemma remove_at_gone (p : list string) (cs : gmap string Linux.node)
    (n : Linux.node) :
  p <> [] ->
  Linux.walk p cs = inl n ->
  Linux.walk p (Linux.remove_at p cs) = inr ENOENT.
Proof.
  revert cs. induction p as [| c p IH]; intros cs Hne; [done |].
  simpl. destruct p as [| c2 p].
  - intros _. by rewrite lookup_delete_eq.
  - destruct (cs !! c) as [[| sub] |] eqn:Hc; try done.
    intros Hw. rewrite lookup_insert_eq. by apply IH.
Qed.


Lemma MkdirAll_mounts (path : string) (perm : Z) (h : Linux.Host) :
  Linux.mounts (Linux.MkdirAll path perm h).2 = Linux.mounts h.
Proof.
  unfold Linux.MkdirAll. case_decide; [done |].
  by destruct (Linux.mkdir_all _ _).
Qed.


(** [os.MkdirAll] never removes or replaces anything. *)
Lemma MkdirAll_preserves (path q : string) (perm : Z) (h : Linux.Host)
    (n : Linux.node) :
  Linux.Stat q h = inl n ->
  exists n', Linux.Stat q (Linux.MkdirAll path perm h).2 = inl n' /\
             Linux.same_kind n n' = true.
Proof.
  intros Hq. unfold Linux.MkdirAll. case_decide.
  { exists n. split; [done | apply same_kind_refl]. }
  destruct (Linux.mkdir_all _ _) as [cs |] eqn:Hmk.
  - unfold Linux.Stat in *. case_decide; [done |]. simpl.
    by eapply mkdir_all_preserves.
  - exists n. split; [done | apply same_kind_refl].
Qed.

Lemma RemoveAll_mounts (path : string) (h : Linux.Host) :
  Linux.mounts (Linux.RemoveAll path h).2 = Linux.mounts h.
Proof.
  unfold Linux.RemoveAll. case_decide; [done |].
  destruct (Linux.endsWithDot path); [done |].
  destruct (Linux.walk _ _) as [n | []]; try done.
  destruct (Linux.busy _ _); [done |]. by destruct (Linux.resolve path).
Qed.

(** What a successful [os.RemoveAll] did: nothing, to a path that was not
    there; or it took away what was at the path. *)
Lemma RemoveAll_ok (path : string) (h h' : Linux.Host) :
  Linux.RemoveAll path h = (None, h') ->
  path = "" /\ h' = h \/
  path <> "" /\ Linux.walk (Linux.resolve path) (Linux.files h) = inr ENOENT /\ h' = h \/
  path <> "" /\ Linux.resolve path <> [] /\
  (exists n, Linux.walk (Linux.resolve path) (Linux.files h) = inl n) /\
  h' = {| Linux.files := Linux.remove_at (Linux.resolve path) (Linux.files h);
          Linux.mounts := Linux.mounts h |}.
Proof.
  unfold Linux.RemoveAll. case_decide; [intros [= <-]; by left |].
  destruct (Linux.endsWithDot path); [done |].
  destruct (Linux.walk _ _) as [n | e] eqn:Hw.
  - destruct (Linux.busy _ _); [done |].
    destruct (Linux.resolve path) eqn:Hp; [done |].
    intros [= <-]. right. right. repeat split; try done. by eexists.
  - destruct e; try done. intros [= <-]. right. by left.
Qed.

Lemma mkdir_all_Some_walk (p : list string) (cs cs' : gmap string Linux.node) :
  Linux.mkdir_all p cs = Some cs' ->
  (exists d, Linux.walk p cs = inl (Linux.Dir d)) \/ Linux.walk p cs = inr ENOENT.
Proof.
  revert cs cs'. induction p as [| c p IH]; intros cs cs'; simpl.
  - intros _. left. by eexists.
  - destruct (cs !! c) as [[| sub] |]; [done | | by right].
    destruct (Linux.mkdir_all p sub) eqn:Hsub; [| done]. intros _. by eapply IH.
Qed.

(** ** Volume creation and deletion: effects on the host *)

(** A request without a name or without a capability leaves the world as
    it is. *)
Lemma CreateVolume_missing {H : Type} {hostOS : HostOS H}
    (s : controllerServer) (req : ptr csi.CreateVolumeRequest.t) (w : World H) :
  csi.CreateVolumeRequest.GetName req = "" \/
  csi.CreateVolumeRequest.GetVolumeCapabilities req = [] ->
  (CreateVolume s req w).2 = w.
Proof.
  intros Hmissing. unfold CreateVolume. case_decide; [done |].
  destruct Hmissing as [? | Hcaps]; [done |]. by rewrite Hcaps.
Qed.

(** X8: on the Linux host, [CreateVolume] with a name and a capability
    either succeeds or fails with [Internal]; it fails exactly when a
    regular file is in the way of the backing path, and then the host is
    left as it was; when it succeeds the backing path is a directory. *)
Theorem CreateVolume_on_host (s : controllerServer)
    (req : ptr csi.CreateVolumeRequest.t) (w : World Linux.Host) :
  csi.CreateVolumeRequest.GetName req <> "" ->
  csi.CreateVolumeRequest.GetVolumeCapabilities req <> [] ->
  let volumeDir :=
    backing_path (controllerServer_d s) (csi.CreateVolumeRequest.GetName req) in
  let r := CreateVolume s req w in
  (succeeded r.1 \/ failed_with Internal r.1) /\
  (failed_with Internal r.1 <->
   Linux.Stat volumeDir (host w) = inl Linux.File \/
   Linux.Stat volumeDir (host w) = inr ENOTDIR) /\
  (failed_with Internal r.1 -> host r.2 = host w) /\
  (succeeded r.1 -> exists d, Linux.Stat volumeDir (host r.2) = inl (Linux.Dir d)).
Proof.
  intros Hname Hcaps volumeDir r.
  pose proof (CreateVolume_run s req w Hname Hcaps) as [Hhost Hrun].
  on_linux Hhost. on_linux Hrun. fold r in Hhost, Hrun.
  change (Linux.Join [stateDir (controllerServer_d s);
                      csi.CreateVolumeRequest.GetName req])
    with volumeDir in Hhost, Hrun.
  assert (volumeDir <> "") as Hdir by by apply backing_path_nonempty.
  rewrite !Stat_walk by done. rewrite Hhost.
  unfold Linux.MkdirAll in *. rewrite decide_False in * by done.
  destruct (Linux.mkdir_all _ _) as [cs |] eqn:Hmk; simpl in *.
  - assert (succeeded r.1) as Hok by (rewrite Hrun; by repeat split).
    split; [by left |]. split; [| split].
    + split; [intros Hf; by destruct (succeeded_not_failed Internal _ Hok) |].
      destruct (mkdir_all_Some_walk _ _ _ Hmk) as [[d Hd] | Hd];
        rewrite Hd; by intros [? | ?].
    + intros Hf; by destruct (succeeded_not_failed Internal _ Hok).
    + intros _. by eapply mkdir_all_walk.
  - split; [by right |]. split; [| split].
    + split; [intros _; by apply mkdir_all_blocked | done].
    + done.
    + intros Hok. by destruct (succeeded_not_failed Internal _ Hok).
Qed.

(** Creating [pvc-2] next to [pvc-1], and creating a volume whose backing
    path is the file a workload wrote. *)
Lemma CreateVolume_on_host_witness :
  (exists d,
     Linux.Stat (backing_path demo_driver "pvc-1")
       (host (CreateVolume demo_controller (Some create_pvc1) (world_of fresh_host)).2)
     = inl (Linux.Dir d)) /\
  host (CreateVolume demo_controller
          (Some {| csi.CreateVolumeRequest.Name := "pvc-1/hello.txt";
                   csi.CreateVolumeRequest.CapacityRange := None;
                   csi.CreateVolumeRequest.VolumeCapabilities := [Some single_writer];
                   csi.CreateVolumeRequest.Parameters := ∅ |})
          (world_of used_host)).2 = used_host.
Proof.
  split.
  - apply (CreateVolume_on_host demo_controller (Some create_pvc1)
             (world_of fresh_host)); [done | done |].
    vm_compute. split; [by eexists | reflexivity].
  - apply (CreateVolume_on_host demo_controller); [done | done |].
    apply (CreateVolume_on_host demo_controller); [done | done |].
    left. vm_compute. reflexivity.
Defined.

(** X9: [CreateVolume] never removes or replaces anything and never
    touches the mount table: whatever the request and the outcome, what was
    at a path before the call is there afterwards, a file as a file and a
    directory as a directory, and the mounts are the same. *)
Theorem CreateVolume_never_removes (s : controllerServer)
    (req : ptr csi.CreateVolumeRequest.t) (w : World Linux.Host)
    (path : string) (n : Linux.node) :
  Linux.Stat path (host w) = inl n ->
  (exists n', Linux.Stat path (host (CreateVolume s req w).2) = inl n' /\
              Linux.same_kind n n' = true) /\
  Linux.mounts (host (CreateVolume s req w).2) = Linux.mounts (host w).
Proof.
  intros Hstat.
  destruct (decide (csi.CreateVolumeRequest.GetName req = "" \/
                    csi.CreateVolumeRequest.GetVolumeCapabilities req = []))
    as [Hmissing | Hpresent].
  - rewrite (CreateVolume_missing s req w Hmissing). split; [| done].
    exists n. split; [done | apply same_kind_refl].
  - assert (csi.CreateVolumeRequest.GetName req <> "") as Hname
      by (intros ?; apply Hpresent; by left).
    assert (csi.CreateVolumeRequest.GetVolumeCapabilities req <> []) as Hcaps
      by (intros ?; apply Hpresent; by right).
    pose proof (CreateVolume_run s req w Hname Hcaps) as [Hhost _].
    on_linux Hhost. rewrite Hhost. split.
    + by apply MkdirAll_preserves.
    + apply MkdirAll_mounts.
Qed.

(** The file a workload wrote into [pvc-1] is still there after [pvc-2] has
    been created. *)
Lemma CreateVolume_never_removes_witness :
  exists n',
    Linux.Stat "/var/lib/demo-csi/volumes/pvc-1/hello.txt"
      (host (CreateVolume demo_controller
               (Some {| csi.CreateVolumeRequest.Name := "pvc-2";
                        csi.CreateVolumeRequest.CapacityRange := None;
                        csi.CreateVolumeRequest.VolumeCapabilities := [Some single_writer];
                        csi.CreateVolumeRequest.Parameters := ∅ |})
               (world_of used_host)).2) = inl n' /\
    Linux.same_kind Linux.File n' = true.
Proof.
  apply (CreateVolume_never_removes demo_controller _ (world_of used_host)
           "/var/lib/demo-csi/volumes/pvc-1/hello.txt" Linux.File).
  vm_compute. reflexivity.
Defined.

(** X10: on the Linux host, after a successful [DeleteVolume] nothing is
    left at the backing path, and a second [DeleteVolume] of the same id
    succeeds and changes nothing; whatever the outcome, [DeleteVolume]
    leaves the mount table as it is. *)
Theorem DeleteVolume_on_host (s : controllerServer)
    (req : ptr csi.DeleteVolumeRequest.t) (w : World Linux.Host) :
  let volumeDir :=
    backing_path (controllerServer_d s) (csi.DeleteVolumeRequest.GetVolumeId req) in
  let r := DeleteVolume s req w in
  Linux.mounts (host r.2) = Linux.mounts (host w) /\
  (succeeded r.1 ->
   Linux.Stat volumeDir (host r.2) = inr ENOENT /\
   succeeded (DeleteVolume s req r.2).1 /\
   host (DeleteVolume s req r.2).2 = host r.2).
Proof.
  intros volumeDir r.
  destruct (decide (csi.DeleteVolumeRequest.GetVolumeId req = "")) as [Hid | Hid].
  { subst r. unfold DeleteVolume. rewrite decide_True by done.
    split; [done |]. by intros [[resp Hresp] _]. }
  pose proof (DeleteVolume_run s req w Hid) as [Hhost Hrun].
  pose proof (DeleteVolume_run s req r.2 Hid) as [Hhost2 Hrun2].
  on_linux Hhost. on_linux Hrun. on_linux Hhost2. on_linux Hrun2.
  fold r in Hhost, Hrun. unfold volumeDir, backing_path.
  set (elem := [stateDir (controllerServer_d s);
                csi.DeleteVolumeRequest.GetVolumeId req]) in *.
  assert (Linux.Join elem <> "") as Hdir by by apply backing_path_nonempty.
  split; [rewrite Hhost; apply RemoveAll_mounts |].
  intros Hok.
  destruct (Linux.RemoveAll (Linux.Join elem) (host w)) as [[e |] h'] eqn:Hrm;
    simpl in Hhost, Hrun; [by destruct (succeeded_not_failed Internal _ Hok) |].
  assert (Linux.Stat (Linux.Join elem) (host r.2) = inr ENOENT) as Hgone.
  { rewrite Hhost, Stat_walk by done.
    apply RemoveAll_ok in Hrm as [[? _] | [(_ & Hw & ->) | (_ & Hp & [n Hw] & ->)]];
      [done | done |].
    simpl. by eapply remove_at_gone. }
  split; [done |].
  rewrite (RemoveAll_not_exist elem _ Hgone) in Hhost2, Hrun2.
  simpl in Hhost2, Hrun2. rewrite Hrun2. by repeat split.
Qed.

(** Deleting [pvc-1] with the file a workload left in it. *)
Lemma DeleteVolume_on_host_witness :
  succeeded (DeleteVolume demo_controller (Some (delete_of "pvc-1"))
               (world_of used_host)).1 /\
  Linux.Stat (backing_path demo_driver "pvc-1")
    (host (DeleteVolume demo_controller (Some (delete_of "pvc-1"))
             (world_of used_host)).2) = inr ENOENT.
Proof.
  assert (succeeded (DeleteVolume demo_controller (Some (delete_of "pvc-1"))
                       (world_of used_host)).1) as Hok.
  { vm_compute. split; [by eexists | reflexivity]. }
  split; [exact Hok |].
  apply (DeleteVolume_on_host demo_controller (Some (delete_of "pvc-1"))
           (world_of used_host)). exact Hok.
Defined.

(** ** Publishing and unpublishing: effects on the host *)










Lemma pop_mount_Some (t : list string) (ms ms' : list Linux.MountEntry) :
  Linux.pop_mount t ms = Some ms' ->
  filter (fun m => Linux.mnt_target m = t) ms'
  = tail (filter (fun m => Linux.mnt_target m = t) ms) /\
  (forall t', t' <> t ->
     filter (fun m => Linux.mnt_target m = t') ms'
     = filter (fun m => Linux.mnt_target m = t') ms).
Proof.
  revert ms'. induction ms as [| m ms IH]; intros ms'; simpl; [done |].
  case_decide as Hm.
  - intros [= <-]. rewrite filter_cons_True by done. split; [done |].
    intros t' Hne. by rewrite filter_cons_False by congruence.
  - destruct (Linux.pop_mount t ms) as [ms'' |]; [| done].
    intros [= <-]. destruct (IH _ eq_refl) as [IH1 IH2].
    rewrite !(filter_cons_False _ m) by done. split; [done |].
    intros t' Hne. rewrite !filter_cons. by rewrite IH2.
Qed.

Lemma Unmount_files (target : string) (flags : Z) (h : Linux.Host) :
  Linux.files (Linux.Unmount target flags h).2 = Linux.files h.
Proof.
  unfold Linux.Unmount. case_decide; [done |].
  destruct (Linux.pop_mount _ _); [done |]. by destruct (Linux.walk _ _).
Qed.

(** A failed [umount2(2)] leaves the host as it is. *)
Lemma Unmount_failed (target : string) (flags : Z) (h : Linux.Host) (e : error) :
  (Linux.Unmount target flags h).1 = Some e ->
  (Linux.Unmount target flags h).2 = h.
Proof.
  unfold Linux.Unmount. case_decide; [done |].
  destruct (Linux.pop_mount _ _); [done |]. by destruct (Linux.walk _ _).
Qed.

Lemma Unmount_ok (target : string) (flags : Z) (h h' : Linux.Host) :
  Linux.Unmount target flags h = (None, h') ->
  exists ms, Linux.pop_mount (Linux.resolve target) (Linux.mounts h) = Some ms /\
             h' = {| Linux.files := Linux.files h; Linux.mounts := ms |}.
Proof.
  unfold Linux.Unmount. case_decide; [done |].
  destruct (Linux.pop_mount _ _) as [ms |].
  - intros [= <-]. by exists ms.
  - by destruct (Linux.walk _ _).
Qed.



(** Unpublishing without a target path; unpublishing a directory on which
    nothing is mounted; and unpublishing a target path whose walk runs
    through a regular file. *)
Lemma NodeUnpublishVolume_outcomes_witness :
  failed_with InvalidArgument
    (NodeUnpublishVolume demo_node (Some (unpublish_of "pvc-1" ""))
       (world_of used_host)).1 /\
  succeeded
    (NodeUnpublishVolume demo_node
       (Some (unpublish_of "pvc-1" "/var/lib/demo-csi/volumes/pvc-1"))
       (world_of used_host)).1 /\
  failed_with Internal
    (NodeUnpublishVolume demo_node
       (Some (unpublish_of "pvc-1" "/var/lib/demo-csi/volumes/pvc-1/hello.txt/vol"))
       (world_of used_host)).1.
Proof.
  split; [| split].
  - apply (NodeUnpublishVolume_outcomes demo_node
             (Some (unpublish_of "pvc-1" "")) (world_of used_host)).
    by right.
  - destruct (NodeUnpublishVolume_outcomes demo_node
                (Some (unpublish_of "pvc-1" "/var/lib/demo-csi/volumes/pvc-1"))
                (world_of used_host)) as (_ & Hnot & _).
    destruct Hnot as [Hexists _]; [done | done | vm_compute; reflexivity |].
    eapply Hexists. vm_compute. reflexivity.
  - destruct (NodeUnpublishVolume_outcomes demo_node
                (Some (unpublish_of "pvc-1"
                         "/var/lib/demo-csi/volumes/pvc-1/hello.txt/vol"))
                (world_of used_host)) as (_ & Hnot & _).
    destruct Hnot as [_ Hmissing]; [done | done | vm_compute; reflexivity |].
    eapply Hmissing. vm_compute. reflexivity.
Defined.

(** A request without a volume id or a target path leaves the world as it
    is. *)
Lemma NodeUnpublishVolume_missing {H : Type} {hostOS : HostOS H} (s : nodeServer)
    (req : ptr csi.NodeUnpublishVolumeRequest.t) (w : World H) :
  csi.NodeUnpublishVolumeRequest.GetVolumeId req = "" \/
  csi.NodeUnpublishVolumeRequest.GetTargetPath req = "" ->
  (NodeUnpublishVolume s req w).2 = w /\
  ~ succeeded (NodeUnpublishVolume s req w).1.
Proof.
  intros Hmissing. unfold NodeUnpublishVolume.
  case_decide; [split; [done | by intros [[? ?] _]] |].
  case_decide; [split; [done | by intros [[? ?] _]] |].
  by destruct Hmissing.
Qed.

(** X15: on the Linux host, [NodeUnpublishVolume] never changes the file
    tree (the target directory stays) and never touches the mounts on
    other paths; when it succeeds, the mounts on the target path are the
    ones there were without the newest, and when it fails the host is as it
    was. *)
Theorem NodeUnpublishVolume_frame (s : nodeServer)
    (req : ptr csi.NodeUnpublishVolumeRequest.t) (w : World Linux.Host) :
  let target := csi.NodeUnpublishVolumeRequest.GetTargetPath req in
  let r := NodeUnpublishVolume s req w in
  Linux.files (host r.2) = Linux.files (host w) /\
  (forall other,
     Linux.resolve other <> Linux.resolve target ->
     Linux.bindings_at other (host r.2) = Linux.bindings_at other (host w)) /\
  (succeeded r.1 ->
   Linux.bindings_at target (host r.2) = tail (Linux.bindings_at target (host w))) /\
  (~ succeeded r.1 -> host r.2 = host w).
Proof.
  intros target r.
  destruct (decide (csi.NodeUnpublishVolumeRequest.GetVolumeId req = "" \/
                    csi.NodeUnpublishVolumeRequest.GetTargetPath req = ""))
    as [Hmissing | Hpresent].
  { destruct (NodeUnpublishVolume_missing s req w Hmissing) as [Hw Hno].
    fold r in Hw, Hno. rewrite Hw. by repeat split. }
  assert (csi.NodeUnpublishVolumeRequest.GetVolumeId req <> "") as Hid
    by (intros ?; apply Hpresent; by left).
  assert (target <> "") as Htarget by (intros ?; apply Hpresent; by right).
  pose proof (NodeUnpublishVolume_run s req w Hid Htarget) as [Hhost Hrun].
  on_linux Hhost. on_linux Hrun. fold target r in Hhost, Hrun. rewrite Hhost.
  destruct (Linux.Unmount target 0 (host w)) as [[e |] h'] eqn:Hu; simpl in *.
  - assert (h' = host w) as ->.
    { change h' with (Some e, h').2. rewrite <- Hu.
      apply Unmount_failed with e. by rewrite Hu. }
    split; [done |]. split; [done |]. split; [| done].
    intros Hok. case_decide as He; [| by destruct (succeeded_not_failed Internal _ Hok)].
    subst e. unfold Linux.Unmount in Hu. rewrite decide_False in Hu by done.
    destruct (Linux.pop_mount _ _) eqn:Hpop; [done |].
    apply pop_mount_None in Hpop. unfold Linux.bindings_at. by rewrite Hpop.
  - apply Unmount_ok in Hu as (ms & Hpop & ->). simpl.
    apply pop_mount_Some in Hpop as [Hsame Hother].
    split; [done |]. split; [| split].
    + intros other Hne. by apply Hother.
    + done.
    + intros Hno. destruct Hno. rewrite Hrun. by repeat split.
Qed.

(** Two volumes are published, then the second is unpublished: the binding
    of the first is untouched. *)
Lemma NodeUnpublishVolume_frame_witness :
  let w1 := (NodePublishVolume demo_node (Some (publish_of "pvc-1" "/pods/x/vol"))
               (world_of fresh_host)).2 in
  let w2 := (NodePublishVolume demo_node (Some (publish_of "pvc-2" "/pods/y/vol")) w1).2 in
  let r := NodeUnpublishVolume demo_node (Some (unpublish_of "pvc-2" "/pods/y/vol")) w2 in
  Linux.bindings_at "/pods/x/vol" (host r.2) = Linux.bindings_at "/pods/x/vol" (host w2) /\
  Linux.bindings_at "/pods/y/vol" (host r.2) = [].
Proof.
  intros w1 w2 r. split.
  - apply (NodeUnpublishVolume_frame demo_node
             (Some (unpublish_of "pvc-2" "/pods/y/vol")) w2).
    vm_compute. discriminate.
  - etrans.
    + apply (NodeUnpublishVolume_frame demo_node
               (Some (unpublish_of "pvc-2" "/pods/y/vol")) w2).
      vm_compute. split; [by eexists | reflexivity].
    + vm_compute. reflexivity.
Defined.

(** ** The backing path of a plain volume id *)

Lemma split_slash_nonempty (s : string) : Linux.split_slash s <> [].
Proof.
  destruct s as [| c s]; simpl; [done |].
  destruct (Ascii.eqb c "/"); [done |]. by destruct (Linux.split_slash s).
Qed.

Lemma split_slash_app (a b : string) :
  Linux.split_slash (a +:+ "/" +:+ b) = Linux.split_slash a ++ Linux.split_slash b.
Proof.
  induction a as [| c a IH].
  - reflexivity.
  - change (String c a +:+ "/" +:+ b) with (String c (a +:+ "/" +:+ b)).
    simpl. destruct (Ascii.eqb c "/").
    + by rewrite IH.
    + rewrite IH. pose proof (split_slash_nonempty a).
      by destruct (Linux.split_slash a).
Qed.

Lemma split_slash_one (e : string) :
  Linux.has_slash e = false -> Linux.split_slash e = [e].
Proof.
  induction e as [| c e IH]; simpl; [done |].
  intros [Hc He]%orb_false_elim. rewrite Hc. by rewrite (IH He).
Qed.

Lemma split_slash_concat (es : list string) :
  es <> [] ->
  Forall (fun e => Linux.has_slash e = false) es ->
  Linux.split_slash (String.concat "/" es) = es.
Proof.
  induction es as [| e es IH]; [done |]. intros _ [He Hes]%Forall_cons.
  destruct es as [| e' es'].
  - simpl. by apply split_slash_one.
  - change (String.concat "/" (e :: e' :: es'))
      with (e +:+ "/" +:+ String.concat "/" (e' :: es')).
    rewrite split_slash_app, IH by done. by rewrite split_slash_one.
Qed.

Lemma clean_elems_app (rooted : bool) (a b stack : list string) :
  Linux.clean_elems rooted stack (a ++ b)
  = Linux.clean_elems rooted (rev (Linux.clean_elems rooted stack a)) b.
Proof.
  revert stack. induction a as [| e a IH]; intros stack; simpl.
  - by rewrite rev_involutive.
  - repeat case_decide; try apply IH.
    destruct stack as [| top stack'].
    + destruct rooted; apply IH.
    + case_decide; apply IH.
Qed.

(** On elements that are plain names the loop of [filepath.Clean] only
    pushes. *)
Lemma clean_elems_plain (rooted : bool) (es stack : list string) :
  Forall plain_id es ->
  Linux.clean_elems rooted stack es = rev stack ++ es.
Proof.
  revert stack. induction es as [| e es IH]; intros stack Hes; simpl.
  - by rewrite List.app_nil_r.
  - apply Forall_cons in Hes as [(_ & He1 & He2 & He3) Hes].
    rewrite !decide_False by done. rewrite IH by done. simpl.
    by rewrite <- app_assoc.
Qed.

(** At the root the loop keeps plain names only. *)
Lemma clean_elems_rooted_plain (elems stack : list string) :
  Forall (fun e => Linux.has_slash e = false) elems ->
  Forall plain_id stack ->
  Forall plain_id (Linux.clean_elems true stack elems).
Proof.
  revert stack. induction elems as [| e rest IH]; intros stack Helems Hstack.
  - simpl. by apply Forall_rev.
  - apply Forall_cons in Helems as [He Hrest]. simpl.
    case_decide; [by apply IH |]. case_decide; [by apply IH |].
    case_decide.
    + destruct stack as [| top stack']; [by apply IH |].
      apply Forall_cons in Hstack as [(_ & _ & _ & Htop) Hstack'].
      rewrite decide_False by done. by apply IH.
    + apply IH; [done |]. by constructor.
Qed.

(** The stack of the loop on a relative path: names on top of a run of
    [..]; at the root the same elements give the names alone. *)
Lemma clean_elems_relative (elems names dots : list string) :
  Forall (fun e => Linux.has_slash e = false) elems ->
  Forall plain_id names ->
  Forall (fun e => e = "..") dots ->
  Linux.clean_elems true [] (Linux.clean_elems false (names ++ dots) elems)
  = Linux.clean_elems true names elems.
Proof.
  revert names dots. induction elems as [| e rest IH]; intros names dots Helems Hn Hd.
  - simpl. rewrite rev_app_distr, clean_elems_app.
    assert (Linux.clean_elems true [] (rev dots) = []) as ->.
    { apply Forall_rev in Hd. induction Hd as [| d ds -> _ IHd]; [done |].
      exact IHd. }
    simpl. apply clean_elems_plain. by apply Forall_rev.
  - apply Forall_cons in Helems as [He Hrest]. simpl.
    case_decide; [by apply IH |]. case_decide; [by apply IH |].
    case_decide as Hdd.
    + destruct names as [| top names'].
      * simpl. destruct dots as [| d dots'].
        -- subst e. by apply (IH [] [".."]); [| | repeat constructor].
        -- apply Forall_cons in Hd as [-> Hd'].
           rewrite decide_True by done.
           subst e. apply (IH [] (".." :: ".." :: dots')); [done | done |].
           by repeat constructor.
      * apply Forall_cons in Hn as [(_ & _ & _ & Htop) Hn'].
        simpl. rewrite !decide_False by done. by apply IH.
    + change (e :: names ++ dots) with ((e :: names) ++ dots).
      apply IH; [done | | done]. by constructor.
Qed.

Lemma clean_elem_no_slash (es : list string) :
  Forall clean_elem es -> Forall (fun e => Linux.has_slash e = false) es.
Proof. intros Hes. eapply Forall_impl; [exact Hes |]. by intros e [? _]. Qed.

(** The kernel's walk along a cleaned path is its walk along the path. *)
Lemma resolve_Clean (path : string) :
  Linux.resolve (Linux.Clean path) = Linux.resolve path.
Proof.
  unfold Linux.Clean. case_decide as Hne; [by subst |].
  pose proof (split_slash_no_slash path) as Hsplit.
  destruct (Linux.is_rooted path) eqn:Hrooted.
  - pose proof (clean_elems_rooted_plain _ [] Hsplit (Forall_nil_2 _)) as Hplain.
    unfold Linux.resolve at 1.
    change ("/" +:+ ?t) with (String "/" t). simpl.
    fold (Linux.resolve path) in *.
    destruct (Linux.resolve path) as [| e es] eqn:Hes; [done |].
    rewrite split_slash_concat; [by apply clean_elems_plain | done |].
    eapply Forall_impl; [exact Hplain |]. by intros ? [? _].
  - pose proof (clean_elems_clean false _ [] Hsplit (Forall_nil_2 _)) as Hclean.
    pose proof (clean_elems_relative _ [] [] Hsplit (Forall_nil_2 _) (Forall_nil_2 _))
      as Hrel. simpl in Hrel. fold (Linux.resolve path) in Hrel.
    destruct (Linux.clean_elems false [] (Linux.split_slash path)) as [| e es] eqn:Hes.
    + by rewrite <- Hrel.
    + unfold Linux.resolve at 1.
      rewrite split_slash_concat; [done | done |]. by apply clean_elem_no_slash.
Qed.

Lemma backing_path_plain_aux (d : Driver) (id : string) :
  plain_id id ->
  Linux.resolve (backing_path d id) = Linux.resolve (stateDir d) ++ [id].
Proof.
  intros (Hslash & Hne & Hdot & Hdd). unfold backing_path. simpl.
  case_decide as Hsd.
  - rewrite decide_False by done. rewrite Hsd.
    rewrite resolve_Clean. unfold Linux.resolve. simpl.
    rewrite split_slash_one by done. simpl.
    rewrite (decide_False (P := id = "")) by done.
    rewrite (decide_False (P := id = ".")) by done.
    by rewrite (decide_False (P := id = "..")) by done.
  - rewrite resolve_Clean.
    change (String.concat "/" [stateDir d; id]) with (stateDir d +:+ "/" +:+ id).
    unfold Linux.resolve. rewrite split_slash_app, clean_elems_app.
    rewrite (split_slash_one id) by done. simpl.
    rewrite (decide_False (P := id = "")) by done.
    rewrite (decide_False (P := id = ".")) by done.
    rewrite (decide_False (P := id = "..")) by done.
    simpl. by rewrite rev_involutive.
Qed.

(** X16: for a volume id that is one plain path element, the backing path
    is the state directory with the id as one more element, so no such id
    leads out of the state directory; and the backing paths of two
    different such ids are different, neither inside the other. *)
Theorem backing_path_plain (d : Driver) (a b : string) :
  plain_id a -> plain_id b ->
  Linux.resolve (backing_path d a) = Linux.resolve (stateDir d) ++ [a] /\
  (a <> b ->
   ~ Linux.resolve (backing_path d a) `prefix_of` Linux.resolve (backing_path d b)).
Proof.
  intros Ha Hb. rewrite !backing_path_plain_aux by done. split; [done |].
  intros Hne Hpre. apply prefix_app_inv in Hpre.
  by apply prefix_cons_inv_1 in Hpre.
Qed.

Lemma backing_path_plain_witness :
  Linux.resolve (backing_path demo_driver "pvc-1")
  = Linux.resolve "/var/lib/demo-csi/volumes" ++ ["pvc-1"].
Proof.
  apply (backing_path_plain demo_driver "pvc-1" "pvc-2"); by repeat split.
Defined.

(** ** Volumes side by side *)






(** ** Creating, then deleting *)

Lemma mkdir_remove_roundtrip (p : list string) (c : string)
    (cs d : gmap string Linux.node) :
  Linux.walk p cs = inl (Linux.Dir d) ->
  Linux.walk (p ++ [c]) cs = inr ENOENT ->
  exists cs1,
    Linux.mkdir_all (p ++ [c]) cs = Some cs1 /\
    Linux.remove_at (p ++ [c]) cs1 = cs.
Proof.
  revert cs. induction p as [| a p IH]; intros cs; simpl.
  - intros _. destruct (cs !! c) as [[| sub] |] eqn:Hc; try done.
    intros _. eexists. split; [done |]. by apply delete_insert_id.
  - destruct (cs !! a) as [[| sub] |] eqn:Ha; try done.
    { by destruct p. }
    intros Hp Hpc. destruct (IH sub Hp Hpc) as (sub1 & Hmk & Hrm).
    rewrite Hmk. eexists. split; [done |].
    destruct (p ++ [c]) as [| x xs] eqn:Hpc'; [by destruct p |].
    rewrite lookup_insert_eq, Hrm, insert_insert_eq. by apply insert_id.
Qed.

(** X18: on the Linux host, deleting undoes creating.  When the state
    directory exists, the volume has a plain name, nothing is at its backing
    path yet and no mount is below it, [CreateVolume] followed by
    [DeleteVolume] succeeds twice and leaves the host exactly as it was. *)
Theorem create_then_delete (s : controllerServer)
    (creq : ptr csi.CreateVolumeRequest.t) (dreq : ptr csi.DeleteVolumeRequest.t)
    (w : World Linux.Host) (d0 : gmap string Linux.node) :
  let name := csi.CreateVolumeRequest.GetName creq in
  let volumeDir := backing_path (controllerServer_d s) name in
  let r1 := CreateVolume s creq w in
  let r2 := DeleteVolume s dreq r1.2 in
  plain_id name ->
  csi.CreateVolumeRequest.GetVolumeCapabilities creq <> [] ->
  csi.DeleteVolumeRequest.GetVolumeId dreq = name ->
  Linux.Stat (stateDir (controllerServer_d s)) (host w) = inl (Linux.Dir d0) ->
  Linux.Stat volumeDir (host w) = inr ENOENT ->
  Linux.busy (Linux.resolve volumeDir) (host w) = false ->
  succeeded r1.1 /\ succeeded r2.1 /\ host r2.2 = host w.
Proof.
  intros name volumeDir r1 r2 Hplain Hcaps Hdreq Hsd Hnone Hbusy.
  assert (name <> "") as Hname by (by destruct Hplain as (_ & ? & _)).
  assert (volumeDir <> "") as Hdir by by apply backing_path_nonempty.
  assert (stateDir (controllerServer_d s) <> "") as Hsdne
    by (intros Hs; by rewrite Hs in Hsd).
  pose proof (backing_path_plain_aux (controllerServer_d s) name Hplain) as Hpath.
  fold volumeDir in Hpath.
  rewrite Stat_walk in Hsd, Hnone by done. rewrite Hpath in Hnone.
  destruct (mkdir_remove_roundtrip _ _ _ _ Hsd Hnone) as (cs1 & Hmk & Hrm).
  pose proof (CreateVolume_run s creq w Hname Hcaps) as [Hh1 Hr1].
  on_linux Hh1. on_linux Hr1. fold name r1 in Hh1, Hr1.
  change (Linux.Join [stateDir (controllerServer_d s); name])
    with volumeDir in Hh1, Hr1.
  unfold Linux.MkdirAll in Hh1, Hr1. rewrite decide_False in Hh1, Hr1 by done.
  rewrite Hpath, Hmk in Hh1, Hr1. simpl in Hh1, Hr1.
  assert (csi.DeleteVolumeRequest.GetVolumeId dreq <> "") as Hid by congruence.
  pose proof (DeleteVolume_run s dreq r1.2 Hid) as [Hh2 Hr2].
  on_linux Hh2. on_linux Hr2. fold r2 in Hh2, Hr2. rewrite Hdreq in Hh2, Hr2.
  change (Linux.Join [stateDir (controllerServer_d s); name])
    with volumeDir in Hh2, Hr2.
  assert (Linux.RemoveAll volumeDir (host r1.2) = (None, host w)) as Hrm'.
  { unfold Linux.RemoveAll. rewrite decide_False by done.
    destruct (Linux.endsWithDot volumeDir) eqn:Hdot.
    { apply Join_endsWithDot in Hdot. fold (backing_path (controllerServer_d s) name) in Hdot.
      fold volumeDir in Hdot. rewrite Hdot in Hpath.
      by destruct (Linux.resolve (stateDir (controllerServer_d s))). }
    rewrite Hh1. simpl. rewrite Hpath.
    destruct (mkdir_all_walk _ _ _ Hmk) as [dv ->].
    unfold Linux.busy in *. simpl. rewrite <- Hpath, Hbusy, Hpath, Hrm.
    destruct (Linux.resolve (stateDir (controllerServer_d s)) ++ [name]) eqn:Hp.
    { by destruct (Linux.resolve (stateDir (controllerServer_d s))). }
    by destruct (host w). }
  rewrite Hrm' in Hh2, Hr2. simpl in Hh2, Hr2.
  rewrite Hr1, Hr2. by repeat split.
Qed.

Lemma create_then_delete_witness :
  host (DeleteVolume demo_controller (Some (delete_of "pvc-1"))
          (CreateVolume demo_controller (Some create_pvc1) (world_of fresh_host)).2).2
  = fresh_host.
Proof.
  eapply (create_then_delete demo_controller (Some create_pvc1)
            (Some (delete_of "pvc-1")) (world_of fresh_host));
    [by repeat split | done | reflexivity | vm_compute; reflexivity
     | vm_compute; reflexivity | reflexivity].
Defined.

(** ** The constructor *)

Lemma walk_child (p : list string) (c : string) (cs d : gmap string Linux.node) :
  Linux.walk p cs = inl (Linux.Dir d) ->
  Linux.walk (p ++ [c]) cs
  = match d !! c with Some n => inl n | None => inr ENOENT end.
Proof.
  revert cs. induction p as [| a p IH]; intros cs; simpl.
  - intros [= ->]. by destruct (d !! c) as [[| sub] |].
  - destruct (cs !! a) as [[| sub] |]; try done; [by destruct p |]. apply IH.
Qed.



(** X20: a driver that [New] returned serves [CreateVolume] for every plain
    name: on the host [New] left, and on any later host on which the state
    directory is still a directory, the call succeeds unless a regular file
    with the name of the volume sits in the state directory, in which case
    it fails with [Internal]. *)
Theorem New_then_CreateVolume (node_id state_dir : string) (h : Linux.Host)
    (d : Driver) (req : ptr csi.CreateVolumeRequest.t) (w : World Linux.Host)
    (d0 : gmap string Linux.node) :
  let name := csi.CreateVolumeRequest.GetName req in
  let r := CreateVolume {| controllerServer_d := d |} req w in
  (New node_id state_dir h).1 = (Some d, None) ->
  Linux.Stat state_dir (host w) = inl (Linux.Dir d0) ->
  plain_id name ->
  csi.CreateVolumeRequest.GetVolumeCapabilities req <> [] ->
  stateDir d = state_dir /\
  (exists d1, Linux.Stat state_dir (New node_id state_dir h).2 = inl (Linux.Dir d1)) /\
  (succeeded r.1 \/ failed_with Internal r.1) /\
  (failed_with Internal r.1 <-> d0 !! name = Some Linux.File).
Proof.
  intros name r Hnew Hsd Hplain Hcaps.
  assert (state_dir <> "") as Hsdne by (intros Hs; by rewrite Hs in Hsd).
  assert (stateDir d = state_dir /\
          exists d1, Linux.Stat state_dir (New node_id state_dir h).2
                     = inl (Linux.Dir d1)) as [Hd Hafter].
  { revert Hnew. unfold New. rewrite linux_MkdirAll. unfold Linux.MkdirAll.
    rewrite decide_False by done.
    destruct (Linux.mkdir_all _ _) as [cs |] eqn:Hmk; [| done]. simpl.
    intros [= <-]. split; [done |]. rewrite Stat_walk by done.
    by eapply mkdir_all_walk. }
  split; [done |]. split; [done |].
  assert (name <> "") as Hname by (by destruct Hplain as (_ & ? & _)).
  pose proof (CreateVolume_run {| controllerServer_d := d |} req w Hname Hcaps)
    as [_ Hrun].
  on_linux Hrun. fold name r in Hrun. cbn [controllerServer_d] in Hrun.
  change (Linux.Join [stateDir d; name]) with (backing_path d name) in Hrun.
  unfold Linux.MkdirAll in Hrun.
  rewrite decide_False in Hrun by by apply backing_path_nonempty.
  rewrite backing_path_plain_aux, Hd in Hrun by done.
  rewrite Stat_walk in Hsd by done.
  pose proof (walk_child _ name _ _ Hsd) as Hchild.
  destruct (Linux.mkdir_all _ _) as [cs |] eqn:Hmk; simpl in Hrun.
  - assert (succeeded r.1) as Hok by (rewrite Hrun; by repeat split).
    split; [by left |]. split.
    + intros Hf. by destruct (succeeded_not_failed Internal _ Hok).
    + intros Hfile. rewrite Hfile in Hchild.
      destruct (mkdir_all_Some_walk _ _ _ Hmk) as [[dd Hdd] | Hdd]; congruence.
  - split; [by right |]. split; [| done]. intros _.
    destruct (mkdir_all_blocked _ _ Hmk) as [Hb | Hb]; rewrite Hb in Hchild.
    + by destruct (d0 !! name) as [[| ?] |].
    + by destruct (d0 !! name).
Qed.

Lemma New_then_CreateVolume_witness :
  succeeded (CreateVolume demo_controller (Some create_pvc1)
               (world_of (New "node-1" "/var/lib/demo-csi/volumes" empty_host).2)).1.
Proof.
  destruct (New_then_CreateVolume "node-1" "/var/lib/demo-csi/volumes" empty_host
              demo_driver (Some create_pvc1)
              (world_of (New "node-1" "/var/lib/demo-csi/volumes" empty_host).2) ∅)
    as (_ & _ & Hcases & Hfail);
    [by vm_compute | by vm_compute | by repeat split | done |].
  destruct Hcases as [Hok | Hf]; [exact Hok |].
  apply Hfail in Hf. by rewrite lookup_empty in Hf.
Defined.

(** ** The life of a volume *)




